(** * n64_sram_converter.py: DreamDumper64 dump to SummerCart 64 save

    A shallow embedding of [src/n64_sram_converter.py] and the properties
    of its two functions, [detect_game_from_save] and [convert_sram_save].

    - Python [bytes] are lists of [Byte.byte]; Python [int]s are [Z].
    - Python [str] values are [string]s whose characters are the code
      points 0..255.
    - Python [float]s are IEEE 754 binary64 values, [spec_float] with the
      operations of [SpecFloat] at precision 53 and maximal exponent 1024.
    - The file system, the terminal input and the printed lines form a
      [world] that the statements of [convert_sram_save] thread through. *)

From Stdlib Require Import ZArith Ascii Strings.Byte Floats.SpecFloat Lia.
From stdpp Require Import gmap strings list.

#[local] Open Scope Z_scope.

(** ** Python values and built-ins *)

Module Py.

Abbreviation bytes := (list byte).

(** [len(s)] *)
Definition len {A} (s : list A) : Z := Z.of_nat (length s).

(** A slice bound [i] of a sequence of length [n]: a negative bound counts
    from the end, and every bound is clipped to [0..n]. *)
Definition clip (n i : Z) : Z :=
  if i <? 0 then Z.max (i + n) 0 else Z.min i n.

(** [s[lo:hi]] *)
Definition slice {A} (s : list A) (lo hi : Z) : list A :=
  let a := clip (len s) lo in
  let b := clip (len s) hi in
  take (Z.to_nat (b - a)) (drop (Z.to_nat a) s).

(** [s.startswith(prefix)] on bytes *)
Fixpoint startswith (s prefix : bytes) {struct prefix} : bool :=
  match prefix, s with
  | [], _ => true
  | p :: prefix', c :: s' => Byte.eqb p c && startswith s' prefix'
  | _ :: _, [] => false
  end.

(** [sub in s] on bytes: [sub] occurs in [s] as a contiguous run. *)
Fixpoint bytes_in (sub s : bytes) : bool :=
  startswith s sub ||
  match s with
  | [] => false
  | _ :: s' => bytes_in sub s'
  end.

(** [sum(xs)] on ints *)
Definition sum (xs : list Z) : Z := foldl Z.add 0 xs.

(** The exceptions the program can meet. [OSError] stands for an error of
    that class of whatever kind the system reports when a file cannot be
    opened for writing; [FileNotFoundError] and [IsADirectoryError] are the
    two kinds the model tells apart: a missing file opened for reading, and
    a directory opened as a file. *)
Inductive exn :=
| EOFError
| FileNotFoundError
| IsADirectoryError
| OSError
| ValueError
| ZeroDivisionError.

(** *** [str] *)

(** [c.lower()] for a code point below 256: the letters A..Z and the
    Latin-1 capitals U+00C0..U+00DE (U+00D7, the multiplication sign, is
    not a letter) move 32 up; every other character is unchanged. *)
Definition lower_char (c : ascii) : ascii :=
  let n := N_of_ascii c in
  if ((65 <=? n) && (n <=? 90) ||
      (192 <=? n) && (n <=? 222) && negb (n =? 215))%N
  then ascii_of_N (n + 32) else c.

(** [s.lower()] *)
Fixpoint lower (s : string) : string :=
  match s with
  | "" => ""
  | String c s' => String (lower_char c) (lower s')
  end.

(** [len(s)] on [str] *)
Definition str_len (s : string) : Z := Z.of_nat (String.length s).

(** [s[:n]] and [s[n:]] for [0 <= n] *)
Fixpoint str_take (n : nat) (s : string) : string :=
  match n, s with
  | S n', String c s' => String c (str_take n' s')
  | _, _ => ""
  end.

Fixpoint str_drop (n : nat) (s : string) : string :=
  match n, s with
  | S n', String _ s' => str_drop n' s'
  | _, _ => s
  end.

(** [s.rfind(c)] for a single character [c]: the highest index of [c] in
    [s], or [-1]. *)
Fixpoint rfind (c : ascii) (s : string) : Z :=
  match s with
  | "" => -1
  | String a s' =>
      let r := rfind c s' in
      if 0 <=? r then r + 1 else if Ascii.eqb a c then 0 else -1
  end.

(** [s.split(sep)] for a single character [sep] *)
Fixpoint split (sep : ascii) (s : string) : list string :=
  match s with
  | "" => [""]
  | String a s' =>
      if Ascii.eqb a sep then "" :: split sep s'
      else match split sep s' with
           | [] => [String a ""]
           | x :: xs => String a x :: xs
           end
  end.

(** [c in s] for a single character [c] *)
Definition char_in (c : ascii) (s : string) : bool := 0 <=? rfind c s.

(** *** [float] *)

Abbreviation float := spec_float.

(** [float(n)], rounding to nearest even. *)
Definition float_of_int (n : Z) : float := binary_normalize 53 1024 n 0 false.

(** [a / b] on ints. CPython converts both operands to [float] and divides
    when they have at most 53 bits, which covers every length of a byte
    string that fits in memory; that path is the one embedded. *)
Definition int_truediv (a b : Z) : exn + float :=
  if b =? 0 then inl ZeroDivisionError
  else inr (SFdiv 53 1024 (float_of_int a) (float_of_int b)).

(** [x * n] for a float [x] and an int [n] *)
Definition float_mul_int (x : float) (n : Z) : float :=
  SFmul 53 1024 x (float_of_int n).

End Py.

Import Py.

(** ** [detect_game_from_save] *)

(** The dict [markers]; a dict is iterated in insertion order, so it is kept
    as the list of its items. *)
Definition markers : list (bytes * string) :=
  [ (["Z"; "E"; "L"; "D"; "A"; "Z"]%byte, "The Legend of Zelda: Ocarina of Time");
    ([x12; x34; x56; x78], "Mario Golf 64") ].

(** The loop [for marker, game_name in items: if marker in window: return
    game_name], ending in [return None]. *)
Fixpoint first_match (items : list (bytes * string)) (window : bytes)
  : option string :=
  match items with
  | [] => None
  | (marker, game_name) :: items' =>
      if bytes_in marker window then Some game_name
      else first_match items' window
  end.

Definition detect_game_from_save (data : bytes) : option string :=
  first_match markers (slice data 0 1024).

(** The specification's reading of a marker test: the pattern occurs
    somewhere in the window. *)
Definition occurs_in (pat window : bytes) : Prop :=
  ∃ pre post, window = pre ++ pat ++ post.

(** An occurrence of [pat] in [data] at offset [i]. *)
Definition occurs_at (pat data : bytes) (i : nat) : Prop :=
  take (length pat) (drop i data) = pat ∧ (i + length pat ≤ length data)%nat.

(** ** [pathlib] on POSIX *)

Module Pathlib.

(** A pure path: its root ([""], ["/"] or ["//"]) and its components. *)
Record path := mk_path { root : string; tail : list string }.

#[global] Instance path_eq_dec : EqDecision path.
Proof. solve_decision. Defined.

#[global] Instance path_countable : Countable path.
Proof.
  refine (inj_countable' (λ p, (root p, tail p)) (λ t, mk_path t.1 t.2) _).
  by intros [].
Defined.

(** [posixpath.splitroot]: exactly two leading slashes are a root of their
    own, one or at least three are the root ["/"]. *)
Definition splitroot (p : string) : string * string :=
  match p with
  | String "/"%char p1 =>
      match p1 with
      | String "/"%char p2 =>
          match p2 with
          | String "/"%char _ => ("/", p1)
          | _ => ("//", p2)
          end
      | _ => ("/", p1)
      end
  | _ => ("", p)
  end.

(** [Path(s)]: the components are the pieces between slashes, without the
    empty ones and the ["."] ones. *)
Definition Path (s : string) : path :=
  let '(root, rel) := splitroot s in
  mk_path root
    (List.filter (λ x, negb (String.eqb x "") && negb (String.eqb x "."))
       (split "/" rel)).

(** [p.name] *)
Definition name (p : path) : string := default "" (last (tail p)).

(** [p.suffix]: from the last dot of the name on, unless that dot starts or
    ends the name. *)
Definition suffix (p : path) : string :=
  let name := name p in
  let i := rfind "." name in
  if (0 <? i) && (i <? str_len name - 1) then str_drop (Z.to_nat i) name
  else "".

(** [p.with_suffix(suffix)] *)
Definition with_suffix (p : path) (new_suffix : string) : exn + path :=
  if char_in "/" new_suffix then inl ValueError
  else if negb (String.eqb new_suffix "") &&
          negb (String.prefix "." new_suffix) ||
          String.eqb new_suffix "." then inl ValueError
  else
    let name := name p in
    if String.eqb name "" then inl ValueError
    else
      let old_suffix := suffix p in
      let name :=
        if String.eqb old_suffix "" then name +:+ new_suffix
        else str_take (String.length name - String.length old_suffix) name
               +:+ new_suffix in
      inr (mk_path (root p) (removelast (tail p) ++ [name])).

End Pathlib.

Import Pathlib.

(** ** The world of the program *)

(** What a path names: a regular file that can be read, with its content,
    or a directory. *)
Inductive node :=
| File (content : bytes)
| Directory.

(** The lines the program prints, each with the values it interpolates
    (their rendering as text is not modelled). *)
Inductive message :=
| MsgInputNotFound (input_file : string)
| MsgReading (name : string)
| MsgFileSize (file_size : Z)
| MsgSizeWarning (file_size : Z)
| MsgMaybeNotDump
| MsgPrompt
| MsgExtracting (sram_size : Z)
| MsgCouldNotExtract (sram_size : Z)
| MsgExtracted (size : Z)
| MsgEmptyWarning
| MsgBlankHint
| MsgFill (data_percentage : float)
| MsgDetected (detected_game : string)
| MsgWriting (name : string)
| MsgComplete (output_file : path) (size : Z)
| MsgNextSteps.

(** - [files]: the file system, by parsed path (relative paths are relative
      to the working directory; links and [".."] are not resolved);
    - [write_denied]: the paths that cannot be opened for writing
      (permissions, missing parent directory, full disk);
    - [stdin]: the lines still to be read from the terminal;
    - [stdout]: the lines printed so far. *)
Record world := World {
  files : gmap path node;
  write_denied : gset path;
  stdin : list string;
  stdout : list message
}.

(** A path without components is the root or the working directory. *)
Definition node_at (w : world) (p : path) : option node :=
  match tail p with
  | [] => Some Directory
  | _ => files w !! p
  end.

(** ** Statements *)

(** A statement of a function body either falls through to the next one
    with a value, returns from the function, or raises. *)
Inductive outcome (R A : Type) :=
| Next (a : A)
| Return (r : R)
| Raise (e : exn).

Arguments Next {R A} a.
Arguments Return {R A} r.
Arguments Raise {R A} e.

Definition stmt (R A : Type) : Type := world → outcome R A * world.

#[global] Instance stmt_ret {R} : MRet (stmt R) := λ A a w, (Next a, w).

#[global] Instance stmt_bind {R} : MBind (stmt R) := λ A B k m w,
  match m w with
  | (Next a, w') => k a w'
  | (Return r, w') => (Return r, w')
  | (Raise e, w') => (Raise e, w')
  end.

(** [return r] *)
Definition return_ {R A} (r : R) : stmt R A := λ w, (Return r, w).

(** [pass] *)
Definition pass {R} : stmt R unit := mret tt.

(** A pure computation that may raise. *)
Definition lift {R A} (x : exn + A) : stmt R A := λ w,
  match x with
  | inl e => (Raise e, w)
  | inr a => (Next a, w)
  end.

(** [print(m)] *)
Definition print {R} (m : message) : stmt R unit := λ w,
  (Next tt, World (files w) (write_denied w) (stdin w) (stdout w ++ [m])).

(** [input(prompt)]: prints the prompt, then reads one line without its
    newline; [EOFError] at the end of the input. *)
Definition input {R} (prompt : message) : stmt R string := λ w,
  let out := stdout w ++ [prompt] in
  match stdin w with
  | [] => (Raise EOFError, World (files w) (write_denied w) [] out)
  | line :: rest => (Next line, World (files w) (write_denied w) rest out)
  end.

(** [p.exists()] *)
Definition path_exists {R} (p : path) : stmt R bool := λ w,
  (Next (bool_decide (is_Some (node_at w p))), w).

(** [with open(p, 'rb') as f: data = f.read()] *)
Definition read_bytes {R} (p : path) : stmt R bytes := λ w,
  match node_at w p with
  | Some (File content) => (Next content, w)
  | Some Directory => (Raise IsADirectoryError, w)
  | None => (Raise FileNotFoundError, w)
  end.

(** [with open(p, 'wb') as f: f.write(data)]. A directory raises
    [IsADirectoryError]. For a path of [write_denied] the model raises
    [OSError], which stands for the error the system reports, whatever its
    kind (Python raises [FileNotFoundError] for a missing parent directory,
    [PermissionError] for a protected file), and it leaves the files as they
    were, although a write that fails after the opening (a full disk) has
    already created or emptied the file. *)
Definition write_bytes {R} (p : path) (data : bytes) : stmt R unit := λ w,
  match node_at w p with
  | Some Directory => (Raise IsADirectoryError, w)
  | _ =>
      if bool_decide (p ∈ write_denied w) then (Raise OSError, w)
      else (Next tt, World (<[p := File data]> (files w)) (write_denied w)
                       (stdin w) (stdout w))
  end.

(** ** [convert_sram_save] *)

Definition sram_size : Z := 0x8000.

(** [sum(1 for b in save_data if b != 0)] *)
Definition count_non_zero (save_data : bytes) : Z :=
  sum ((λ _, 1) <$> filter (λ b, Byte.to_N b ≠ 0%N) save_data).

(** [(non_zero / len(save_data)) * 100] *)
Definition percentage (non_zero : Z) (save_data : bytes) : exn + float :=
  match int_truediv non_zero (len save_data) with
  | inl e => inl e
  | inr q => inr (float_mul_int q 100)
  end.

(** The output file: derived from the input path when [output_file] is
    [None], else the given one. *)
Definition output_path (input_path : path) (output_file : option string)
  : exn + path :=
  match output_file with
  | None => with_suffix input_path ".sav"
  | Some given => inr (Path given)
  end.

Definition convert_sram_save (input_file : string) (output_file : option string)
  : stmt bool unit :=
  let input_path := Path input_file in
  found ← path_exists input_path;
  (if negb found then
     print (MsgInputNotFound input_file);;
     return_ false
   else pass);;
  print (MsgReading (name input_path));;
  data ← read_bytes input_path;
  let file_size := len data in
  print (MsgFileSize file_size);;
  (if negb (file_size =? 131072) then
     print (MsgSizeWarning file_size);;
     print MsgMaybeNotDump;;
     response ← input MsgPrompt;
     let response := lower response in
     if negb (String.eqb response "y") then return_ false else pass
   else pass);;
  print (MsgExtracting sram_size);;
  let save_data := slice data 0 sram_size in
  (if negb (len save_data =? sram_size) then
     print (MsgCouldNotExtract sram_size);;
     return_ false
   else pass);;
  print (MsgExtracted (len save_data));;
  let non_zero := count_non_zero save_data in
  data_percentage ← lift (percentage non_zero save_data);
  (if non_zero =? 0 then
     print MsgEmptyWarning;;
     print MsgBlankHint
   else print (MsgFill data_percentage));;
  let detected_game := detect_game_from_save save_data in
  match detected_game with
  | Some game => if negb (String.eqb game "") then print (MsgDetected game) else pass
  | None => pass
  end;;
  output_file ← lift (output_path input_path output_file);
  print (MsgWriting (name output_file));;
  write_bytes output_file save_data;;
  print (MsgComplete output_file (len save_data));;
  print MsgNextSteps;;
  return_ true.

(** *** The phases of [convert_sram_save]

    The body of the function, cut at the two places where the properties below
    divide it; [convert_sram_save_phases] below shows that the function is
    their sequence. *)

(** The size check with its prompt. *)
Definition size_check (file_size : Z) : stmt bool unit :=
  if negb (file_size =? 131072) then
    print (MsgSizeWarning file_size);;
    print MsgMaybeNotDump;;
    response ← input MsgPrompt;
    let response := lower response in
    if negb (String.eqb response "y") then return_ false else pass
  else pass.

(** From the extraction to the end. *)
Definition extract_and_write (input_path : path) (output_file : option string)
    (data : bytes) : stmt bool unit :=
  print (MsgExtracting sram_size);;
  let save_data := slice data 0 sram_size in
  (if negb (len save_data =? sram_size) then
     print (MsgCouldNotExtract sram_size);;
     return_ false
   else pass);;
  print (MsgExtracted (len save_data));;
  let non_zero := count_non_zero save_data in
  data_percentage ← lift (percentage non_zero save_data);
  (if non_zero =? 0 then
     print MsgEmptyWarning;;
     print MsgBlankHint
   else print (MsgFill data_percentage));;
  let detected_game := detect_game_from_save save_data in
  match detected_game with
  | Some game => if negb (String.eqb game "") then print (MsgDetected game) else pass
  | None => pass
  end;;
  output_file ← lift (output_path input_path output_file);
  print (MsgWriting (name output_file));;
  write_bytes output_file save_data;;
  print (MsgComplete output_file (len save_data));;
  print MsgNextSteps;;
  return_ true.

(** The world after more lines were printed. *)
Definition printed (w : world) (msgs : list message) : world :=
  World (files w) (write_denied w) (stdin w) (stdout w ++ msgs).

(** The messages of the size check. *)
Definition size_check_message (m : message) : bool :=
  match m with
  | MsgSizeWarning _ | MsgMaybeNotDump | MsgPrompt => true
  | _ => false
  end.

(** The lines printed about the fill ratio and about the detected game. *)
Definition fill_messages (save_data : bytes) (data_percentage : float)
  : list message :=
  if count_non_zero save_data =? 0 then [MsgEmptyWarning; MsgBlankHint]
  else [MsgFill data_percentage].

Definition detect_messages (save_data : bytes) : list message :=
  match detect_game_from_save save_data with
  | Some game => if negb (String.eqb game "") then [MsgDetected game] else []
  | None => []
  end.

(** [extract_and_write] in closed form: its outcome and final world, case
    by case ([extract_and_write_closed] below proves them equal). *)
Definition extract_and_write_result (input_path : path)
    (output_file : option string) (data : bytes) (w : world)
  : outcome bool unit * world :=
  let save_data := slice data 0 sram_size in
  if negb (len save_data =? sram_size) then
    (Return false,
     printed w [MsgExtracting sram_size; MsgCouldNotExtract sram_size])
  else
    let msgs1 := [MsgExtracting sram_size; MsgExtracted (len save_data)] in
    match percentage (count_non_zero save_data) save_data with
    | inl e => (Raise e, printed w msgs1)
    | inr data_percentage =>
        let msgs2 :=
          msgs1 ++ fill_messages save_data data_percentage
                ++ detect_messages save_data in
        match output_path input_path output_file with
        | inl e => (Raise e, printed w msgs2)
        | inr out =>
            let msgs3 := msgs2 ++ [MsgWriting (name out)] in
            match node_at w out with
            | Some Directory => (Raise IsADirectoryError, printed w msgs3)
            | _ =>
                if bool_decide (out ∈ write_denied w)
                then (Raise OSError, printed w msgs3)
                else
                  (Return true,
                   World (<[out := File save_data]> (files w))
                     (write_denied w) (stdin w)
                     (stdout w ++ msgs3 ++
                        [MsgComplete out (len save_data); MsgNextSteps]))
            end
        end
    end.

(** The world after the size check asked its question and read an answer. *)
Definition asked (w : world) (file_size : Z) (rest : list string) : world :=
  World (files w) (write_denied w) rest
    (stdout w ++ [MsgSizeWarning file_size; MsgMaybeNotDump; MsgPrompt]).

(** [convert_sram_save] in closed form ([convert_sram_save_closed] below
    proves them equal). *)
Definition convert_sram_save_result (input_file : string)
    (output_file : option string) (w : world) : outcome bool unit * world :=
  let input_path := Path input_file in
  match node_at w input_path with
  | None => (Return false, printed w [MsgInputNotFound input_file])
  | Some Directory =>
      (Raise IsADirectoryError, printed w [MsgReading (name input_path)])
  | Some (File data) =>
      let w1 :=
        printed w [MsgReading (name input_path); MsgFileSize (len data)] in
      if len data =? 131072 then
        extract_and_write_result input_path output_file data w1
      else
        match stdin w with
        | [] => (Raise EOFError, asked w1 (len data) [])
        | response :: rest =>
            if String.eqb (lower response) "y" then
              extract_and_write_result input_path output_file data
                (asked w1 (len data) rest)
            else (Return false, asked w1 (len data) rest)
        end
  end.

(** ** The specification's notions, for comparison *)

(** The specification's [validateSize]. *)
Inductive ValidationOutcome :=
| Exact
| Mismatch (actualLength : Z).

Definition validateSize_spec (buffer : bytes) : ValidationOutcome :=
  if len buffer =? 131072 then Exact else Mismatch (len buffer).

(** The float [f] is exactly the rational [num / den]. *)
Definition float_is_ratio (f : float) (num den : Z) : Prop :=
  match f with
  | S754_zero _ => num = 0
  | S754_finite s m e =>
      (if s then Z.neg m else Z.pos m) * 2 ^ Z.max e 0 * den
      = num * 2 ^ Z.max (- e) 0
  | _ => False
  end.

Definition float_is_ratio_b (f : float) (num den : Z) : bool :=
  match f with
  | S754_zero _ => num =? 0
  | S754_finite s m e =>
      (if s then Z.neg m else Z.pos m) * 2 ^ Z.max e 0 * den
      =? num * 2 ^ Z.max (- e) 0
  | _ => false
  end.

(** [p c] for every [c] of [start, start + 1, ...], [fuel] of them. *)
Fixpoint all_from (fuel : nat) (start : Z) (p : Z → bool) : bool :=
  match fuel with
  | O => true
  | S fuel' => p start && all_from fuel' (start + 1) p
  end.

(** The fill ratio of a 32768-byte region with [c] non-zero bytes is the
    float that is exactly [100 * c / 32768]. *)
Definition percentage_exact_b (c : Z) : bool :=
  match int_truediv c sram_size with
  | inl _ => false
  | inr q => float_is_ratio_b (float_mul_int q 100) (100 * c) sram_size
  end.

(** ** Sample data *)

Definition zelda_marker : bytes := ["Z"; "E"; "L"; "D"; "A"; "Z"]%byte.
Definition mario_marker : bytes := [x12; x34; x56; x78].

(** A 131072-byte dump that starts with the Mario Golf bytes and is zero
    elsewhere. *)
Definition mario_dump : bytes := mario_marker ++ repeat x00 (Z.to_nat 131068).

(** A 131072-byte dump that starts with the Mario Golf bytes, followed by
    the Zelda marker. *)
Definition mario_zelda_dump : bytes :=
  mario_marker ++ zelda_marker ++ repeat x00 (Z.to_nat 131062).

(** A world whose only file is [ROMF.ram] with the given content, and a
    terminal that will answer with the given lines. *)
Definition dump_world (data : bytes) (answers : list string) : world :=
  World {[ Path "ROMF.ram" := File data ]} ∅ answers [].

(** The same world with [ROMF.sav] closed to writing and nothing to read
    from the terminal. *)
Definition locked_world (data : bytes) : world :=
  World {[ Path "ROMF.ram" := File data ]} {[ Path "ROMF.sav" ]} [] [].

(** A world whose only file is [game.sav] with the given content. *)
Definition save_world (data : bytes) (answers : list string) : world :=
  World {[ Path "game.sav" := File data ]} ∅ answers [].

(** ** [main] *)

(** The lines [main] prints itself: the banner, and the usage text. Both
    come before the call of [convert_sram_save], so the whole output of the
    program is these lines followed by the lines of the conversion. *)
Inductive main_message :=
| MsgBanner
| MsgUsage.

(** How the process ends: [sys.exit(code)], or an exception that nothing
    catches, which the interpreter reports with the exit status 1. *)
Inductive termination :=
| Exit (code : Z)
| Uncaught (e : exn).

Definition exit_status (t : termination) : Z :=
  match t with
  | Exit code => code
  | Uncaught _ => 1
  end.

(** [main], on [sys.argv]. The first pattern is [len(sys.argv) >= 2], with
    [input_file = sys.argv[1]] and [output_file = sys.argv[2]] when there
    are more than two entries, else [None]; a conversion that returned
    nothing would count as a failure ([0 if success else 1]). *)
Definition main (argv : list string) (w : world)
  : termination * list main_message * world :=
  match argv with
  | _ :: input_file :: more =>
      let output_file :=
        match more with
        | given :: _ => Some given
        | [] => None
        end in
      match convert_sram_save input_file output_file w with
      | (Return success, w') =>
          (Exit (if success then 0 else 1), [MsgBanner], w')
      | (Next _, w') => (Exit 1, [MsgBanner], w')
      | (Raise e, w') => (Uncaught e, [MsgBanner], w')
      end
  | _ => (Exit 1, [MsgBanner; MsgUsage], w)
  end.

(** ** Notions for the properties of whole runs *)

(** The size check lets the run go on: the file has the expected size, or
    the next line of the terminal is [y] up to case. *)
Definition confirmed (w : world) (data : bytes) : bool :=
  (len data =? 131072) ||
  match stdin w with
  | response :: _ => String.eqb (lower response) "y"
  | [] => false
  end.

(** The world after the file was read and the size check is over. *)
Definition checked (w : world) (input_file : string) (data : bytes) : world :=
  let w1 :=
    printed w [MsgReading (name (Path input_file)); MsgFileSize (len data)] in
  if len data =? 131072 then w1 else asked w1 (len data) (drop 1 (stdin w)).

(** The lines of the last phase up to the opening of the output file. *)
Definition extraction_messages (save_data : bytes) (data_percentage : float)
    (out : path) : list message :=
  ([MsgExtracting sram_size; MsgExtracted (len save_data)]
     ++ fill_messages save_data data_percentage
     ++ detect_messages save_data)
    ++ [MsgWriting (name out)].

(** The fill ratio of a 32768-byte region with [c] non-zero bytes lies
    between 0.0 and 100.0, and is 0.0 only for [c = 0]. *)
Definition percentage_in_range_b (c : Z) : bool :=
  match int_truediv c sram_size with
  | inl _ => false
  | inr q =>
      let f := float_mul_int q 100 in
      SFleb (S754_zero false) f && SFleb f (float_of_int 100) &&
      (negb (SFeqb f (S754_zero false)) || (c =? 0))
  end.

(** ** Facts about the built-ins *)

Section Builtins.

Context {A : Type}.
Implicit Types (s : list A) (n : Z).

Lemma len_nonneg s : 0 <= len s.
Proof. unfold len. lia. Qed.

Lemma clip_nonneg_bound s n : 0 <= n -> clip (len s) n = Z.min n (len s).
Proof. intros Hn. unfold clip. destruct (Z.ltb_spec n 0); lia. Qed.

(** For a bound [n >= 0], [s[0:n]] and [s[:n]] are the first [n] elements. *)
Lemma slice_prefix s n : 0 <= n -> slice s 0 n = take (Z.to_nat n) s.
Proof.
  intros Hn. unfold slice. rewrite (clip_nonneg_bound s n Hn).
  rewrite (clip_nonneg_bound s 0 (Z.le_refl 0)).
  pose proof (len_nonneg s) as Hs.
  rewrite (Z.min_l 0) by lia. rewrite Z.sub_0_r. change (Z.to_nat 0) with 0%nat.
  rewrite drop_0. unfold len in *.
  destruct (Z.le_ge_cases n (Z.of_nat (length s))) as [Hle|Hge].
  - by rewrite Z.min_l.
  - rewrite Z.min_r by lia. rewrite Nat2Z.id.
    rewrite !take_ge; [done | lia | lia].
Qed.

Lemma len_slice_prefix s n : 0 <= n -> len (slice s 0 n) = Z.min n (len s).
Proof.
  intros Hn. rewrite slice_prefix by done. unfold len.
  rewrite length_take. lia.
Qed.

End Builtins.

Lemma startswith_spec (s prefix : bytes) :
  startswith s prefix = true ↔ ∃ post, s = prefix ++ post.
Proof.
  revert s. induction prefix as [|p prefix IH]; intros s; simpl.
  - split; [intros _; by exists s | done].
  - destruct s as [|c s].
    + split; [done | intros [post Hpost]; discriminate].
    + rewrite andb_true_iff, IH. split.
      * intros [Hpc [post ->]]. apply Byte.byte_dec_bl in Hpc as ->. by exists post.
      * intros [post Hpost]. injection Hpost as -> ->.
        split; [by apply Byte.byte_dec_lb | by exists post].
Qed.

(** [sub in s] is the substring test. *)
Lemma bytes_in_spec (sub s : bytes) :
  bytes_in sub s = true ↔ occurs_in sub s.
Proof.
  unfold occurs_in. induction s as [|c s IH]; simpl.
  - rewrite orb_false_r, startswith_spec. split.
    + intros [post Hpost]. by exists [], post.
    + intros [pre [post Hpp]]. symmetry in Hpp.
      apply app_eq_nil in Hpp as [-> Hpp]. exists post. by rewrite Hpp.
  - rewrite orb_true_iff, IH, startswith_spec. split.
    + intros [[post Hpost] | [pre [post Hpp]]].
      * by exists [], post.
      * exists (c :: pre), post. by rewrite Hpp.
    + intros [[|c' pre] [post Hpp]].
      * left. by exists post.
      * right. injection Hpp as -> ->. by exists pre, post.
Qed.

Lemma occurs_in_at (pat s : bytes) :
  occurs_in pat s ↔ ∃ i, occurs_at pat s i.
Proof.
  unfold occurs_in, occurs_at. split.
  - intros [pre [post ->]]. exists (length pre). split.
    + rewrite drop_app_length. by rewrite take_app_length.
    + rewrite !length_app. lia.
  - intros [i [Htake Hlen]]. exists (take i s), (drop (length pat) (drop i s)).
    rewrite <- Htake at 1. by rewrite !take_drop.
Qed.

(** ** The marker scan *)

Lemma first_match_Some items (window : bytes) g :
  first_match items window = Some g ↔
  ∃ before m after, items = before ++ (m, g) :: after ∧ occurs_in m window ∧
    ∀ m' g', (m', g') ∈ before → ¬ occurs_in m' window.
Proof.
  induction items as [|[marker game_name] items IH]; simpl.
  - split; [done | intros ([|? ?] & ? & ? & ? & _); discriminate].
  - destruct (bytes_in marker window) eqn:Hin.
    + apply bytes_in_spec in Hin. split.
      * intros [= ->]. exists [], marker, items. repeat split; [done|].
        intros m' g' Hel. by apply elem_of_nil in Hel.
      * intros ([|[m0 g0] before] & m & after & Heq & Hocc & Hno).
        -- by injection Heq as -> -> ->.
        -- injection Heq as Hm Hg Hit. destruct (Hno m0 g0); [left | by rewrite <- Hm].
    + assert (¬ occurs_in marker window) as Hnot.
      { rewrite <- bytes_in_spec. by rewrite Hin. }
      rewrite IH. split.
      * intros (before & m & after & -> & Hocc & Hno).
        exists ((marker, game_name) :: before), m, after. repeat split; [done|].
        intros m' g' [[= -> ->] | Hel]%elem_of_cons; [done | by eapply Hno].
      * intros ([|[m0 g0] before] & m & after & Heq & Hocc & Hno).
        -- by injection Heq as -> -> ->.
        -- injection Heq as Hm Hg Hit. exists before, m, after.
           repeat split; [done | done |].
           intros m' g' Hel. eapply Hno. by right.
Qed.

Lemma first_match_None items (window : bytes) :
  first_match items window = None ↔
  ∀ m g, (m, g) ∈ items → ¬ occurs_in m window.
Proof.
  induction items as [|[marker game_name] items IH]; simpl.
  - split; [intros _ m g Hel; by apply elem_of_nil in Hel | done].
  - destruct (bytes_in marker window) eqn:Hin.
    + apply bytes_in_spec in Hin. split; [done|].
      intros Hno. destruct (Hno marker game_name); [left | done].
    + assert (¬ occurs_in marker window) as Hnot.
      { rewrite <- bytes_in_spec. by rewrite Hin. }
      rewrite IH. split.
      * intros Hno m g [[= -> ->] | Hel]%elem_of_cons; [done | by eapply Hno].
      * intros Hno m g Hel. eapply Hno. by right.
Qed.

(** An occurrence inside the first [n] bytes is an occurrence in the data
    that ends at or before offset [n]. *)
Lemma occurs_at_take (pat data : bytes) (n i : nat) :
  occurs_at pat (take n data) i ↔ occurs_at pat data i ∧ (i + length pat ≤ n)%nat.
Proof.
  unfold occurs_at. rewrite length_take. split.
  - intros [Htake Hlen]. assert (i + length pat ≤ n)%nat as Hn by lia.
    split; [split|]; [|lia|done].
    rewrite <- Htake at 2.
    replace n with (i + (n - i))%nat at 1 by lia.
    rewrite <- take_drop_commute, take_take. f_equal. lia.
  - intros [[Htake Hlen] Hn]. split; [|lia].
    replace n with (i + (n - i))%nat by lia.
    rewrite <- take_drop_commute, take_take.
    rewrite <- Htake at 2. f_equal. lia.
Qed.

Lemma occurs_in_take (pat data : bytes) (n : nat) :
  occurs_in pat (take n data) ↔
  ∃ i, occurs_at pat data i ∧ (i + length pat ≤ n)%nat.
Proof.
  rewrite occurs_in_at. by setoid_rewrite occurs_at_take.
Qed.

Lemma detect_window (data : bytes) :
  detect_game_from_save data = first_match markers (take 1024 data).
Proof. unfold detect_game_from_save. by rewrite slice_prefix. Qed.

(** When a marker of the table occurs in the window, the scan returns the
    label of an entry at or before it. *)
Lemma first_match_earliest items (window : bytes) i m g :
  items !! i = Some (m, g) → occurs_in m window →
  ∃ k mk gk, (k ≤ i)%nat ∧ items !! k = Some (mk, gk) ∧
    occurs_in mk window ∧ first_match items window = Some gk.
Proof.
  revert i. induction items as [|[marker game_name] items IH]; intros i Hi Hocc.
  - by rewrite lookup_nil in Hi.
  - simpl. destruct (bytes_in marker window) eqn:Hin.
    + exists 0%nat, marker, game_name. apply bytes_in_spec in Hin.
      split_and!; [lia | done..].
    + destruct i as [|i]; simpl in Hi.
      * injection Hi as -> ->. apply bytes_in_spec in Hocc. congruence.
      * destruct (IH i Hi Hocc) as (k & mk & gk & Hk & Hlk & Hok & Hfm).
        exists (S k), mk, gk. split_and!; [lia | done..].
Qed.

(** C3: the game detection is a function of the bytes that scans the marker
    table in its order over the first 1024 bytes: it returns the label of
    the first entry whose pattern occurs there as a substring, and [None]
    exactly when no pattern occurs; when two entries both occur, the label
    returned belongs to an entry at or before the earlier one, and with the
    table of the program, where both markers occur, it is the first label. *)
Theorem detect_game_first_marker_in_table_order (data : bytes) :
  let window := slice data 0 1024 in
  window = take 1024 data ∧
  (∀ game, detect_game_from_save data = Some game ↔
     ∃ before marker after,
       markers = before ++ (marker, game) :: after ∧
       occurs_in marker window ∧
       ∀ m g, (m, g) ∈ before → ¬ occurs_in m window) ∧
  (detect_game_from_save data = None ↔
     ∀ m g, (m, g) ∈ markers → ¬ occurs_in m window) ∧
  (∀ i j mi gi mj gj,
     markers !! i = Some (mi, gi) → markers !! j = Some (mj, gj) →
     (i < j)%nat → occurs_in mi window → occurs_in mj window →
     ∃ k mk gk, (k ≤ i)%nat ∧ markers !! k = Some (mk, gk) ∧
       detect_game_from_save data = Some gk) ∧
  (occurs_in ["Z"; "E"; "L"; "D"; "A"; "Z"]%byte window →
   occurs_in [x12; x34; x56; x78] window →
   detect_game_from_save data = Some "The Legend of Zelda: Ocarina of Time").
Proof.
  intros window. unfold detect_game_from_save. fold window.
  split; [by apply slice_prefix|].
  split; [intros game; apply first_match_Some|].
  split; [apply first_match_None|].
  split.
  - intros i j mi gi mj gj Hi _ _ Hoi _.
    destruct (first_match_earliest markers window i mi gi Hi Hoi)
      as (k & mk & gk & Hk & Hlk & _ & Hfm).
    by exists k, mk, gk.
  - intros Hz _. simpl. apply bytes_in_spec in Hz. by rewrite Hz.
Qed.

(** C10: a marker counts only when an occurrence of it lies entirely inside
    the first 1024 bytes: every detected label has such an occurrence, and
    when every occurrence of every marker ends after offset 1024 (also one
    that starts before it) nothing is detected. *)
Theorem marker_detected_only_inside_first_1024 (data : bytes) :
  (∀ game, detect_game_from_save data = Some game →
     ∃ marker i, (marker, game) ∈ markers ∧ occurs_at marker data i ∧
       (i + length marker ≤ 1024)%nat) ∧
  ((∀ marker game i, (marker, game) ∈ markers → occurs_at marker data i →
      (1024 < i + length marker)%nat) →
   detect_game_from_save data = None).
Proof.
  rewrite detect_window. split.
  - intros game (before & marker & after & Heq & Hocc & _)%first_match_Some.
    apply occurs_in_take in Hocc as (i & Hat & Hi).
    exists marker, i. split_and!; [|done..].
    rewrite Heq. apply elem_of_app. right. left.
  - intros Hpast. apply first_match_None. intros m g Hel Hocc.
    apply occurs_in_take in Hocc as (i & Hat & Hi).
    specialize (Hpast m g i Hel Hat). lia.
Qed.

(** A marker that starts at offset 1020 and ends at 1026 is not seen. *)
Example marker_across_offset_1024_not_detected :
  let data := repeat x00 1020 ++ ["Z"; "E"; "L"; "D"; "A"; "Z"]%byte ++ repeat x00 100 in
  occurs_at ["Z"; "E"; "L"; "D"; "A"; "Z"]%byte data 1020 ∧
  detect_game_from_save data = None.
Proof. split; [split; [reflexivity | vm_compute; lia] | by vm_compute]. Qed.

(** ** C7: the Mario Golf scenario *)

(** C7 as stated fails: a 131072-byte dump whose first four bytes are
    12 34 56 78 and whose next six are ZELDAZ is reported as Zelda, the
    earlier entry of the table. *)
Lemma mario_prefix_with_zelda_marker_detected_as_zelda :
  len mario_zelda_dump = 131072 ∧
  slice mario_zelda_dump 0 4 = [x12; x34; x56; x78] ∧
  detect_game_from_save (slice mario_zelda_dump 0 sram_size)
    = Some "The Legend of Zelda: Ocarina of Time" ∧
  detect_game_from_save (slice mario_zelda_dump 0 sram_size)
    ≠ Some "Mario Golf 64".
Proof.
  split_and!; by vm_compute.
Qed.

Lemma slice_window_of_region (data : bytes) :
  slice (slice data 0 sram_size) 0 1024 = slice data 0 1024.
Proof.
  rewrite !slice_prefix by (unfold sram_size; lia).
  rewrite take_take. f_equal; unfold sram_size; lia.
Qed.

(** C7, amended: a 131072-byte dump whose first four bytes are 12 34 56 78
    and whose first 1024 bytes do not contain ZELDAZ is reported as Mario
    Golf. *)
Theorem mario_golf_detected_without_zelda_marker (data : bytes) :
  len data = 131072 →
  slice data 0 4 = [x12; x34; x56; x78] →
  bytes_in zelda_marker (slice data 0 1024) = false →
  detect_game_from_save (slice data 0 sram_size) = Some "Mario Golf 64".
Proof.
  intros _ Hstart Hzelda. unfold detect_game_from_save.
  rewrite slice_window_of_region. simpl. fold zelda_marker. rewrite Hzelda.
  assert (bytes_in [x12; x34; x56; x78] (slice data 0 1024) = true) as ->; [|done].
  apply bytes_in_spec. rewrite slice_prefix in * by lia.
  exists [], (drop 4 (take (Z.to_nat 1024) data)). simpl.
  rewrite <- (take_drop 4 (take (Z.to_nat 1024) data)) at 1.
  rewrite take_take. change (4 `min` Z.to_nat 1024)%nat with 4%nat.
  change (Z.to_nat 4) with 4%nat in Hstart. by rewrite Hstart.
Qed.

Lemma mario_golf_detected_without_zelda_marker_witness :
  len mario_dump = 131072 ∧
  slice mario_dump 0 4 = [x12; x34; x56; x78] ∧
  bytes_in zelda_marker (slice mario_dump 0 1024) = false ∧
  detect_game_from_save (slice mario_dump 0 sram_size) = Some "Mario Golf 64".
Proof.
  assert (len mario_dump = 131072) as Hlen by (by vm_compute).
  assert (slice mario_dump 0 4 = [x12; x34; x56; x78]) as Hstart by (by vm_compute).
  assert (bytes_in zelda_marker (slice mario_dump 0 1024) = false) as Hzelda
    by (by vm_compute).
  split_and!; [done.. |].
  exact (mario_golf_detected_without_zelda_marker mario_dump Hlen Hstart Hzelda).
Defined.

(** ** Running the statements *)

Lemma convert_sram_save_phases input_file output_file :
  convert_sram_save input_file output_file =
  (let input_path := Path input_file in
   found ← path_exists input_path;
   (if negb found then
      print (MsgInputNotFound input_file);;
      return_ false
    else pass);;
   print (MsgReading (name input_path));;
   data ← read_bytes input_path;
   print (MsgFileSize (len data));;
   size_check (len data);;
   extract_and_write input_path output_file data).
Proof. reflexivity. Qed.

Ltac unfold_statements :=
  unfold mbind, stmt_bind, print, input, pass, mret, stmt_ret, return_, lift,
    path_exists, read_bytes, write_bytes, printed, asked, node_at.

Ltac reduce_world := cbn [files stdout stdin write_denied negb].

Lemma extract_and_write_closed input_path output_file data w :
  extract_and_write input_path output_file data w
  = extract_and_write_result input_path output_file data w.
Proof.
  unfold extract_and_write, extract_and_write_result, fill_messages,
    detect_messages.
  unfold_statements. reduce_world.
  destruct (len (slice data 0 sram_size) =? sram_size); reduce_world;
    [|by rewrite <- !app_assoc].
  destruct (percentage _ _) as [e|f]; [by rewrite <- !app_assoc|].
  destruct (count_non_zero _ =? 0);
    destruct (detect_game_from_save _) as [game|];
    try destruct (String.eqb game "");
    reduce_world;
    (destruct (output_path _ _) as [e|out]; reduce_world;
     [by rewrite <- ?app_assoc|]);
    (destruct (tail out);
     [|destruct (files w !! out) as [[]|]];
     try destruct (bool_decide _);
     reduce_world; rewrite <- ?app_assoc; reflexivity).
Qed.

Lemma size_check_closed file_size w :
  size_check file_size w =
  if file_size =? 131072 then (Next tt, w)
  else match stdin w with
       | [] => (Raise EOFError, asked w file_size [])
       | response :: rest =>
           (if String.eqb (lower response) "y" then Next tt else Return false,
            asked w file_size rest)
       end.
Proof.
  unfold size_check. destruct (file_size =? 131072); [done|].
  unfold_statements. reduce_world.
  destruct (stdin w) as [|response rest]; reduce_world;
    [by rewrite <- !app_assoc|].
  destruct (String.eqb (lower response) "y"); reduce_world;
    by rewrite <- !app_assoc.
Qed.

Lemma node_at_files w w' p : files w' = files w → node_at w' p = node_at w p.
Proof. intros Hfiles. unfold node_at. by rewrite Hfiles. Qed.

Lemma printed_printed w msgs msgs' :
  printed (printed w msgs) msgs' = printed w (msgs ++ msgs').
Proof. unfold printed. reduce_world. by rewrite app_assoc. Qed.

Lemma bind_print {A} (m : message) (k : unit → stmt bool A) w :
  (print m ≫= k) w = k tt (printed w [m]).
Proof. reflexivity. Qed.

Lemma bind_run {R A B} (m : stmt R A) (k : A → stmt R B) w :
  (m ≫= k) w =
  match m w with
  | (Next a, w') => k a w'
  | (Return r, w') => (Return r, w')
  | (Raise e, w') => (Raise e, w')
  end.
Proof. reflexivity. Qed.

Lemma convert_sram_save_closed input_file output_file w :
  convert_sram_save input_file output_file w
  = convert_sram_save_result input_file output_file w.
Proof.
  rewrite convert_sram_save_phases. unfold convert_sram_save_result.
  cbv zeta. rewrite bind_run. unfold path_exists at 1.
  destruct (node_at w (Path input_file)) as [[data|]|] eqn:Hnode.
  - rewrite bool_decide_eq_true_2 by done. cbn [negb].
    rewrite bind_run. unfold pass at 1, mret, stmt_ret.
    rewrite bind_print, bind_run. unfold read_bytes.
    rewrite (node_at_files w) by done. rewrite Hnode.
    rewrite bind_print, printed_printed. cbn [app].
    rewrite bind_run, size_check_closed.
    destruct (len data =? 131072).
    + apply extract_and_write_closed.
    + cbn [stdin printed]. destruct (stdin w) as [|response rest]; [done|].
      destruct (String.eqb (lower response) "y"); [|done].
      apply extract_and_write_closed.
  - rewrite bool_decide_eq_true_2 by done. cbn [negb].
    rewrite bind_run. unfold pass at 1, mret, stmt_ret.
    rewrite bind_print, bind_run. unfold read_bytes.
    rewrite (node_at_files w) by done. by rewrite Hnode.
  - rewrite bool_decide_eq_false_2 by (by intros [? ?]). cbn [negb].
    rewrite bind_run, bind_print. by unfold return_.
Qed.

(** ** The extracted region *)

Lemma region_of_long_data (data : bytes) :
  sram_size ≤ len data →
  slice data 0 sram_size = take (Z.to_nat 32768) data ∧
  len (slice data 0 sram_size) = sram_size.
Proof.
  intros Hlen. split.
  - by rewrite slice_prefix.
  - rewrite len_slice_prefix by done. lia.
Qed.

Lemma region_of_short_data (data : bytes) :
  len data < sram_size → len (slice data 0 sram_size) ≠ sram_size.
Proof. intros Hlen. rewrite len_slice_prefix by done. lia. Qed.

Lemma percentage_of_region (save_data : bytes) :
  len save_data = sram_size →
  ∃ f, percentage (count_non_zero save_data) save_data = inr f.
Proof.
  intros Hlen. unfold percentage, int_truediv. rewrite Hlen.
  change (sram_size =? 0) with false. eauto.
Qed.

Lemma fill_messages_late save_data f :
  Forall (λ m, size_check_message m = false) (fill_messages save_data f).
Proof. unfold fill_messages. case_match; by repeat constructor. Qed.

Lemma detect_messages_late save_data :
  Forall (λ m, size_check_message m = false) (detect_messages save_data).
Proof. unfold detect_messages. repeat case_match; by repeat constructor. Qed.

Lemma extract_result_short input_path output_file data w :
  len data < sram_size →
  extract_and_write_result input_path output_file data w =
  (Return false,
   printed w [MsgExtracting sram_size; MsgCouldNotExtract sram_size]).
Proof.
  intros Hlen%region_of_short_data. unfold extract_and_write_result.
  by apply Z.eqb_neq in Hlen as ->.
Qed.

Lemma extract_result_success input_path output_file data w out :
  sram_size ≤ len data →
  output_path input_path output_file = inr out →
  node_at w out ≠ Some Directory →
  out ∉ write_denied w →
  ∃ msgs,
    extract_and_write_result input_path output_file data w =
    (Return true,
     World (<[out := File (slice data 0 sram_size)]> (files w))
       (write_denied w) (stdin w) (stdout w ++ msgs)).
Proof.
  intros [_ Hlen]%region_of_long_data Hout Hnode Hdenied.
  unfold extract_and_write_result.
  destruct (percentage_of_region _ Hlen) as [f ->].
  apply Z.eqb_eq in Hlen as ->. cbn [negb]. rewrite Hout.
  rewrite bool_decide_eq_false_2 by done.
  destruct (node_at w out) as [[content|]|]; [|done|]; eauto.
Qed.

(** Whatever the outcome of the last phase: it reads no input, prints no
    line of the size check, and changes the files only when it returns
    [True], by writing the region to the output path. *)
Lemma extract_result_inv input_path output_file data w res w' :
  extract_and_write_result input_path output_file data w = (res, w') →
  stdin w' = stdin w ∧
  (∃ msgs, stdout w' = stdout w ++ MsgExtracting sram_size :: msgs ∧
     Forall (λ m, size_check_message m = false) msgs) ∧
  (res ≠ Return true → files w' = files w) ∧
  (res = Return true →
   sram_size ≤ len data ∧
   ∃ out, output_path input_path output_file = inr out ∧
     files w' = <[out := File (slice data 0 sram_size)]> (files w)).
Proof.
  unfold extract_and_write_result.
  destruct (len (slice data 0 sram_size) =? sram_size) eqn:Hlen; cbn [negb].
  2:{ intros [= <- <-]. split_and!; [done| |done|done].
      eexists. split; [done|]. by repeat constructor. }
  assert (sram_size ≤ len data) as Hlong.
  { apply Z.eqb_eq in Hlen. rewrite len_slice_prefix in Hlen by done. lia. }
  pose proof (fill_messages_late (slice data 0 sram_size)) as Hfill.
  pose proof (detect_messages_late (slice data 0 sram_size)) as Hdetect.
  destruct (percentage _ _) as [e|f].
  { intros [= <- <-]. split_and!; [done| |done|done].
    eexists. split; [done|]. by repeat constructor. }
  specialize (Hfill f).
  assert (Forall (λ m : message, size_check_message m = false)
            (MsgExtracted (len (slice data 0 sram_size))
             :: fill_messages (slice data 0 sram_size) f
             ++ detect_messages (slice data 0 sram_size))) as Hlate.
  { constructor; [done|]. by apply Forall_app. }
  destruct (output_path _ _) as [e|out].
  { intros [= <- <-]. split_and!; [done| |done|done].
    eexists. split; [done|]. done. }
  assert (Forall (λ m : message, size_check_message m = false)
            ((MsgExtracted (len (slice data 0 sram_size))
              :: fill_messages (slice data 0 sram_size) f
              ++ detect_messages (slice data 0 sram_size))
             ++ [MsgWriting (name out)])) as Hlate'.
  { apply Forall_app. split; [done|]. by repeat constructor. }
  match goal with
  | |- _ → ?concl =>
      assert (∀ e : exn,
        (Raise e,
         printed w
           (([MsgExtracting sram_size;
              MsgExtracted (len (slice data 0 sram_size))]
             ++ fill_messages (slice data 0 sram_size) f
             ++ detect_messages (slice data 0 sram_size))
            ++ [MsgWriting (name out)])) = (res, w') → concl) as Hraise
  end.
  { intros e [= <- <-]. split_and!; [done| |done|done].
    eexists. split; [done|]. done. }
  destruct (node_at w out) as [[content|]|]; [|exact (Hraise _)|];
    (destruct (bool_decide (out ∈ write_denied w)); [exact (Hraise _)|]);
    intros [= <- <-]; reduce_world;
    (split_and!; [done| |done|by eauto]);
    (eexists; split;
     [by rewrite <- !app_assoc
     |repeat first [done | constructor | apply Forall_app; split]]).
Qed.

(** ** Strings and paths *)

Lemma append_cons c s1 s2 : String c s1 +:+ s2 = String c (s1 +:+ s2).
Proof. reflexivity. Qed.

Lemma length_append s1 s2 :
  String.length (s1 +:+ s2) = (String.length s1 + String.length s2)%nat.
Proof. induction s1 as [|c s1 IH]; [done|]. rewrite append_cons. simpl. by rewrite IH. Qed.

Lemma str_take_drop n s : str_take n s +:+ str_drop n s = s.
Proof.
  revert s. induction n as [|n IH]; intros [|c s]; try done.
  simpl. by rewrite append_cons, IH.
Qed.

Lemma length_str_take n s :
  String.length (str_take n s) = (n `min` String.length s)%nat.
Proof. revert s. induction n as [|n IH]; intros [|c s]; simpl; by rewrite ?IH. Qed.

Lemma length_str_drop n s :
  String.length (str_drop n s) = (String.length s - n)%nat.
Proof. revert s. induction n as [|n IH]; intros [|c s]; simpl; by rewrite ?IH. Qed.

Lemma str_drop_append s1 s2 : str_drop (String.length s1) (s1 +:+ s2) = s2.
Proof. induction s1 as [|c s1 IH]; [by destruct s2|]. by rewrite append_cons. Qed.

Lemma rfind_bounds c s : -1 ≤ rfind c s < str_len s.
Proof.
  unfold str_len. induction s as [|a s IH]; [simpl; lia|].
  cbn [rfind String.length]. rewrite Nat2Z.inj_succ.
  destruct (Z.leb_spec 0 (rfind c s)); [lia|]. destruct (Ascii.eqb a c); lia.
Qed.

Lemma rfind_append c s1 s2 :
  0 ≤ rfind c s2 → rfind c (s1 +:+ s2) = str_len s1 + rfind c s2.
Proof.
  intros Hfound. unfold str_len. induction s1 as [|a s1 IH]; [done|].
  rewrite append_cons. cbn [rfind String.length]. rewrite IH, Nat2Z.inj_succ.
  destruct (Z.leb_spec 0 (Z.of_nat (String.length s1) + rfind c s2)); lia.
Qed.

(** A name [stem.sav] with a non-empty stem has the suffix [.sav]. *)
Lemma suffix_of_sav_name root_ parent stem :
  stem ≠ "" →
  name (mk_path root_ (parent ++ [stem +:+ ".sav"])) = stem +:+ ".sav" ∧
  suffix (mk_path root_ (parent ++ [stem +:+ ".sav"])) = ".sav".
Proof.
  intros Hstem.
  assert (name (mk_path root_ (parent ++ [stem +:+ ".sav"])) = stem +:+ ".sav")
    as Hname by (unfold name; simpl; by rewrite last_snoc).
  split; [done|]. unfold suffix. rewrite Hname.
  rewrite rfind_append by (by vm_compute).
  change (rfind "." ".sav") with 0. rewrite Z.add_0_r.
  unfold str_len. rewrite length_append. change (String.length ".sav") with 4%nat.
  assert (0 < String.length stem)%nat by (destruct stem; [done | simpl; lia]).
  destruct (Z.ltb_spec 0 (Z.of_nat (String.length stem))); [|lia].
  destruct (Z.ltb_spec (Z.of_nat (String.length stem))
              (Z.of_nat (String.length stem + 4) - 1)); [|lia].
  simpl. rewrite Nat2Z.id. apply str_drop_append.
Qed.

(** The derivation of the output name: the name is cut at its suffix and
    [.sav] is put in its place; root and parent components stay. *)
Lemma with_suffix_sav (p : path) :
  name p ≠ "" →
  ∃ stem, stem ≠ "" ∧ name p = stem +:+ suffix p ∧
    with_suffix p ".sav"
    = inr (mk_path (root p) (removelast (tail p) ++ [stem +:+ ".sav"])).
Proof.
  intros Hname. unfold with_suffix.
  change (char_in "/" ".sav") with false.
  change (negb (String.eqb ".sav" "") && negb (String.prefix "." ".sav")
          || String.eqb ".sav" ".") with false.
  cbv iota. apply String.eqb_neq in Hname as Hname'. rewrite Hname'.
  destruct (String.eqb (suffix p) "") eqn:Hsuffix.
  - apply String.eqb_eq in Hsuffix. exists (name p). split_and!; [done| |done].
    rewrite Hsuffix. clear. induction (name p) as [|c s IH]; [done|].
    by rewrite append_cons, <- IH.
  - apply String.eqb_neq in Hsuffix. unfold suffix in *.
    pose proof (rfind_bounds "." (name p)) as Hi. unfold str_len in *.
    destruct ((0 <? rfind "." (name p))
              && (rfind "." (name p) <? Z.of_nat (String.length (name p)) - 1))
      eqn:Hdot; [|done].
    apply andb_true_iff in Hdot as [Hpos%Z.ltb_lt Hend%Z.ltb_lt].
    rewrite length_str_drop.
    replace (String.length (name p)
             - (String.length (name p) - Z.to_nat (rfind "." (name p))))%nat
      with (Z.to_nat (rfind "." (name p))) by lia.
    exists (str_take (Z.to_nat (rfind "." (name p))) (name p)).
    split_and!; [|by rewrite str_take_drop|done].
    intros Hempty. apply (f_equal String.length) in Hempty.
    rewrite length_str_take in Hempty. simpl in Hempty. lia.
Qed.

Lemma Path_components s x : x ∈ tail (Path s) → x ≠ "".
Proof.
  unfold Path. destruct (splitroot s) as [r rel]. simpl.
  rewrite list_elem_of_In, filter_In.
  intros [_ Hx]. apply andb_true_iff in Hx as [Hx _].
  apply negb_true_iff, String.eqb_neq in Hx. done.
Qed.

(** A path that names a file has a name. *)
Lemma name_of_file w s data :
  node_at w (Path s) = Some (File data) → name (Path s) ≠ "".
Proof.
  unfold node_at, name. intros Hnode.
  destruct (last (tail (Path s))) as [x|] eqn:Hlast.
  - simpl. eapply Path_components, last_Some_elem_of, Hlast.
  - apply last_None in Hlast. by rewrite Hlast in Hnode.
Qed.

Lemma output_path_of_file w input_file output_file data :
  node_at w (Path input_file) = Some (File data) →
  ∃ out, output_path (Path input_file) output_file = inr out.
Proof.
  intros Hnode%name_of_file. destruct output_file as [given|]; simpl; [eauto|].
  destruct (with_suffix_sav _ Hnode) as (stem & _ & _ & ->). eauto.
Qed.

(** ** The runs of [convert_sram_save] on a readable file *)

Section Readable.

Context (w : world) (input_file : string) (output_file : option string).
Context (data : bytes).
Hypothesis Hfile : node_at w (Path input_file) = Some (File data).

Let input_path := Path input_file.
Let w1 := printed w [MsgReading (name input_path); MsgFileSize (len data)].

Lemma convert_exact_run :
  len data = 131072 →
  convert_sram_save input_file output_file w
  = extract_and_write_result input_path output_file data w1.
Proof.
  intros Hlen. rewrite convert_sram_save_closed. unfold convert_sram_save_result.
  rewrite Hfile. by apply Z.eqb_eq in Hlen as ->.
Qed.

Lemma convert_eof_run :
  len data ≠ 131072 → stdin w = [] →
  convert_sram_save input_file output_file w
  = (Raise EOFError, asked w1 (len data) []).
Proof.
  intros Hlen Hin. rewrite convert_sram_save_closed. unfold convert_sram_save_result.
  rewrite Hfile, Hin. by apply Z.eqb_neq in Hlen as ->.
Qed.

Lemma convert_answered_run response rest :
  len data ≠ 131072 → stdin w = response :: rest →
  convert_sram_save input_file output_file w
  = if String.eqb (lower response) "y"
    then extract_and_write_result input_path output_file data
           (asked w1 (len data) rest)
    else (Return false, asked w1 (len data) rest).
Proof.
  intros Hlen Hin. rewrite convert_sram_save_closed. unfold convert_sram_save_result.
  rewrite Hfile, Hin. by apply Z.eqb_neq in Hlen as ->.
Qed.

(** The lines of a run: the two about the file, the three of the size
    check exactly when the length is not 131072, then lines that are not
    of the size check. Without the size check no input is read. *)
Lemma convert_trace res w' :
  convert_sram_save input_file output_file w = (res, w') →
  ∃ late,
    Forall (λ m, size_check_message m = false) late ∧
    stdout w' =
      stdout w ++ [MsgReading (name input_path); MsgFileSize (len data)]
        ++ (if len data =? 131072 then []
            else [MsgSizeWarning (len data); MsgMaybeNotDump; MsgPrompt])
        ++ late ∧
    (len data = 131072 → stdin w' = stdin w).
Proof.
  rewrite convert_sram_save_closed. unfold convert_sram_save_result.
  rewrite Hfile. fold input_path. fold w1.
  destruct (Z.eqb_spec (len data) 131072) as [Hlen|Hlen].
  - intros (Hin & (msgs & Hout & Hlate) & _)%extract_result_inv.
    exists (MsgExtracting sram_size :: msgs).
    split_and!; [by constructor | | done].
    rewrite Hout. unfold w1, printed. reduce_world. by rewrite <- app_assoc.
  - destruct (stdin w) as [|response rest].
    { intros [= <- <-]. exists []. split_and!; [done | | done].
      unfold asked, w1, printed. reduce_world. by rewrite <- !app_assoc. }
    destruct (String.eqb (lower response) "y").
    + intros (Hin & (msgs & Hout & Hlate) & _)%extract_result_inv.
      exists (MsgExtracting sram_size :: msgs).
      split_and!; [by constructor | | done].
      rewrite Hout. unfold asked, w1, printed. reduce_world.
      by rewrite <- !app_assoc.
    + intros [= <- <-]. exists []. split_and!; [done | | done].
      unfold asked, w1, printed. reduce_world. by rewrite <- !app_assoc.
Qed.

(** The files change only in a run that returns [True], and then by the
    region written to the output path. *)
Lemma convert_files res w' :
  convert_sram_save input_file output_file w = (res, w') →
  (res ≠ Return true → files w' = files w) ∧
  (res = Return true →
   sram_size ≤ len data ∧
   ∃ out, output_path input_path output_file = inr out ∧
     files w' = <[out := File (slice data 0 sram_size)]> (files w)).
Proof.
  rewrite convert_sram_save_closed. unfold convert_sram_save_result.
  rewrite Hfile. fold input_path. fold w1.
  destruct (len data =? 131072).
  - by intros (_ & _ & Hfail & Hok)%extract_result_inv.
  - destruct (stdin w) as [|response rest]; [by intros [= <- <-]|].
    destruct (String.eqb (lower response) "y"); [|by intros [= <- <-]].
    by intros (_ & _ & Hfail & Hok)%extract_result_inv.
Qed.

(** A run that reaches the last phase with at least 32768 bytes and an
    output path that can be written returns [True]. *)
Lemma convert_success (w2 : world) out :
  convert_sram_save input_file output_file w
  = extract_and_write_result input_path output_file data w2 →
  files w2 = files w → write_denied w2 = write_denied w →
  sram_size ≤ len data →
  output_path input_path output_file = inr out →
  node_at w out ≠ Some Directory →
  out ∉ write_denied w →
  ∃ w', convert_sram_save input_file output_file w = (Return true, w') ∧
    files w' = <[out := File (slice data 0 sram_size)]> (files w).
Proof.
  intros -> Hfiles Hdenied Hlen Hout Hnode Hwrite.
  destruct (extract_result_success input_path output_file data w2 out)
    as [msgs ->]; [done | done | | by rewrite Hdenied |].
  - by rewrite (node_at_files w).
  - eexists. split; [done|]. reduce_world. by rewrite Hfiles.
Qed.

End Readable.

Lemma lower_char_y c : lower_char c = "y"%char ↔ c = "y"%char ∨ c = "Y"%char.
Proof.
  destruct c as [[] [] [] [] [] [] [] []]; vm_compute;
    (split; [intros H; first [discriminate H | by left | by right]
            |intros [H|H]; first [discriminate H | done]]).
Qed.

(** The test of the program, [response.lower() == 'y'], holds for the two
    answers [y] and [Y] only. *)
Lemma lower_y response : lower response = "y" ↔ response = "y" ∨ response = "Y".
Proof.
  destruct response as [|c [|c' response]]; simpl.
  - split; [done | by intros [|]].
  - split.
    + intros [= Hc%lower_char_y]. destruct Hc as [-> | ->]; [by left | by right].
    + intros [[= ->] | [= ->]]; done.
  - split; [done | by intros [|]].
Qed.

Lemma region_lookup (data : bytes) (k : nat) :
  Z.of_nat k < 32768 → slice data 0 sram_size !! k = data !! k.
Proof.
  intros Hk. rewrite slice_prefix by done. apply lookup_take_lt.
  unfold sram_size. lia.
Qed.

Lemma dump_world_file data answers :
  node_at (dump_world data answers) (Path "ROMF.ram") = Some (File data).
Proof. reflexivity. Qed.

Lemma dump_world_writable data answers p :
  tail p ≠ [] →
  node_at (dump_world data answers) p ≠ Some Directory ∧
  p ∉ write_denied (dump_world data answers).
Proof.
  intros Htail. split; [|apply not_elem_of_empty].
  unfold node_at, dump_world. cbn [files].
  destruct (tail p); [done|].
  intros [_ Hnode]%lookup_singleton_Some. discriminate Hnode.
Qed.

(** ** C1: a dump of the expected size *)

(** C1: for an input file of 131072 bytes, the extracted region is the
    first 32768 bytes of the input, each byte at its own offset, and a run
    that returns [True] has written exactly that region to the output path;
    when the output path can be written the run does return [True]. *)
Theorem exact_dump_yields_first_32768_bytes
    (w : world) (input_file : string) (output_file : option string)
    (data : bytes) :
  node_at w (Path input_file) = Some (File data) →
  len data = 131072 →
  slice data 0 sram_size = take (Z.to_nat 32768) data ∧
  len (slice data 0 sram_size) = 32768 ∧
  (∀ k : nat, Z.of_nat k < 32768 → slice data 0 sram_size !! k = data !! k) ∧
  ∃ out,
    output_path (Path input_file) output_file = inr out ∧
    (∀ w', convert_sram_save input_file output_file w = (Return true, w') →
       files w' = <[out := File (take (Z.to_nat 32768) data)]> (files w)) ∧
    (node_at w out ≠ Some Directory → out ∉ write_denied w →
     ∃ w', convert_sram_save input_file output_file w = (Return true, w') ∧
       files w' !! out = Some (File (take (Z.to_nat 32768) data)) ∧
       stdin w' = stdin w).
Proof.
  intros Hfile Hlen.
  assert (sram_size ≤ len data) as Hlong by (unfold sram_size; lia).
  destruct (region_of_long_data data Hlong) as [Hregion Hsize].
  split_and!; [done | done | apply region_lookup |].
  destruct (output_path_of_file w input_file output_file data Hfile)
    as [out Hout].
  exists out. split_and!; [done | |].
  - intros w' Hrun.
    destruct (convert_files w input_file output_file data Hfile _ _ Hrun)
      as [_ Hok].
    destruct (Hok eq_refl) as (_ & out' & Hout' & ->).
    rewrite Hregion. congruence.
  - intros Hnode Hwrite.
    destruct (convert_success w input_file output_file data _ out
                (convert_exact_run w input_file output_file data Hfile Hlen))
      as (w' & Hrun & Hfiles); [done..|].
    exists w'. split_and!; [done | |].
    + by rewrite Hfiles, lookup_insert_eq, Hregion.
    + destruct (convert_trace w input_file output_file data Hfile _ _ Hrun)
        as (_ & _ & _ & Hin). by apply Hin.
Qed.

Lemma exact_dump_yields_first_32768_bytes_witness :
  len mario_dump = 131072 ∧
  ∃ w', convert_sram_save "ROMF.ram" None (dump_world mario_dump [])
        = (Return true, w') ∧
    files w' !! Path "ROMF.sav"
    = Some (File (take (Z.to_nat 32768) mario_dump)).
Proof.
  assert (len mario_dump = 131072) as Hlen by (vm_compute; reflexivity).
  pose proof (dump_world_file mario_dump []) as Hfile.
  split; [exact Hlen|].
  destruct (exact_dump_yields_first_32768_bytes
              (dump_world mario_dump []) "ROMF.ram" None mario_dump Hfile Hlen)
    as (_ & _ & _ & out & Hout & _ & Hrun).
  vm_compute in Hout. injection Hout as <-.
  destruct (dump_world_writable mario_dump [] (mk_path "" ["ROMF.sav"]))
    as [Hnode Hwrite]; [discriminate|].
  destruct (Hrun Hnode Hwrite) as (w' & Hrun' & Hwritten & _).
  exists w'. split; [exact Hrun' | exact Hwritten].
Defined.

(** ** C2: an input shorter than the region *)

(** C2, amended: for an input file of fewer than 32768 bytes the extraction
    fails (the slice is shorter than the region) and the files are left as
    they were, so no output file is produced; the run returns [False] for
    every answer to the size question, and ends in [EOFError] when the
    terminal has no answer to give. *)
Theorem short_input_fails_without_output
    (w : world) (input_file : string) (output_file : option string)
    (data : bytes) :
  node_at w (Path input_file) = Some (File data) →
  len data < 32768 →
  let run := convert_sram_save input_file output_file w in
  len (slice data 0 sram_size) ≠ sram_size ∧
  files run.2 = files w ∧
  (stdin w ≠ [] → run.1 = Return false) ∧
  (stdin w = [] → run.1 = Raise EOFError).
Proof.
  intros Hfile Hlen run.
  assert (len data < sram_size) as Hshort by done.
  assert (len data ≠ 131072) as Hsize by lia.
  split; [by apply region_of_short_data|].
  destruct (stdin w) as [|response rest] eqn:Hin.
  - subst run. rewrite (convert_eof_run w input_file output_file data Hfile Hsize Hin).
    by split_and!.
  - subst run.
    rewrite (convert_answered_run w input_file output_file data Hfile
               response rest Hsize Hin).
    rewrite extract_result_short by done.
    destruct (String.eqb (lower response) "y"); by split_and!.
Qed.

Lemma short_input_fails_without_output_witness :
  let w := dump_world (repeat x01 100) ["y"] in
  len (repeat x01 100) < 32768 ∧
  (convert_sram_save "ROMF.ram" None w).1 = Return false ∧
  files (convert_sram_save "ROMF.ram" None w).2 = files w.
Proof.
  intros w.
  pose proof (dump_world_file (repeat x01 100) ["y"]) as Hfile.
  assert (len (repeat x01 100) < 32768) as Hlen by (vm_compute; reflexivity).
  destruct (short_input_fails_without_output
              w "ROMF.ram" None (repeat x01 100) Hfile Hlen)
    as (_ & Hfiles & Hfalse & _).
  split_and!; [exact Hlen | apply Hfalse; discriminate | exact Hfiles].
Defined.

(** C2 as stated fails: a file of 100 bytes has to pass the size question
    first, and when the terminal is at its end [input()] raises [EOFError]:
    the run does not return [False]. *)
Lemma short_input_without_answer_raises :
  let w := dump_world (replicate 100 x01) [] in
  len (replicate 100 x01) < 32768 ∧
  (convert_sram_save "ROMF.ram" None w).1 = Raise EOFError ∧
  (convert_sram_save "ROMF.ram" None w).1 ≠ Return false ∧
  files (convert_sram_save "ROMF.ram" None w).2 = files w.
Proof.
  intros w.
  assert (len (replicate 100 x01) ≠ 131072) as Hsize by (vm_compute; discriminate).
  rewrite (convert_eof_run w "ROMF.ram" None (replicate 100 x01)
             (dump_world_file _ _) Hsize eq_refl).
  split_and!; [by vm_compute | reflexivity | discriminate | reflexivity].
Qed.

(** ** C8: a size mismatch that the user confirms *)

(** C8: for an input file of at least 32768 bytes whose length is not
    131072, after the answer [y] or [Y] to the size question the run goes on:
    a run that returns [True] has written exactly the first 32768 bytes of
    the input to the output path, and when the output path can be written
    the run does return [True]. *)
Theorem confirmed_mismatch_still_converts
    (w : world) (input_file : string) (output_file : option string)
    (data : bytes) (response : string) (rest : list string) :
  node_at w (Path input_file) = Some (File data) →
  32768 ≤ len data →
  len data ≠ 131072 →
  stdin w = response :: rest →
  response = "y" ∨ response = "Y" →
  slice data 0 sram_size = take (Z.to_nat 32768) data ∧
  ∃ out,
    output_path (Path input_file) output_file = inr out ∧
    (∀ w', convert_sram_save input_file output_file w = (Return true, w') →
       files w' = <[out := File (take (Z.to_nat 32768) data)]> (files w)) ∧
    (node_at w out ≠ Some Directory → out ∉ write_denied w →
     ∃ w', convert_sram_save input_file output_file w = (Return true, w') ∧
       files w' !! out = Some (File (take (Z.to_nat 32768) data))).
Proof.
  intros Hfile Hlong Hsize Hin Hyes%lower_y.
  destruct (region_of_long_data data Hlong) as [Hregion _].
  split; [done|].
  destruct (output_path_of_file w input_file output_file data Hfile)
    as [out Hout].
  exists out. split_and!; [done | |].
  - intros w' Hrun.
    destruct (convert_files w input_file output_file data Hfile _ _ Hrun)
      as [_ Hok].
    destruct (Hok eq_refl) as (_ & out' & Hout' & ->).
    rewrite Hregion. congruence.
  - intros Hnode Hwrite.
    pose proof (convert_answered_run w input_file output_file data Hfile
                  response rest Hsize Hin) as Hrun.
    apply String.eqb_eq in Hyes. rewrite Hyes in Hrun.
    destruct (convert_success w input_file output_file data _ out Hrun)
      as (w' & Hrun' & Hfiles); [done..|].
    exists w'. split; [done|].
    by rewrite Hfiles, lookup_insert_eq, Hregion.
Qed.

Lemma confirmed_mismatch_still_converts_witness :
  let data := repeat x01 (Z.to_nat 65536) in
  32768 ≤ len data ∧ len data ≠ 131072 ∧
  ∃ w', convert_sram_save "ROMF.ram" (Some "out/game.sav") (dump_world data ["Y"])
        = (Return true, w') ∧
    files w' !! Path "out/game.sav"
    = Some (File (take (Z.to_nat 32768) data)).
Proof.
  intros data.
  assert (32768 ≤ len data) as Hlong by (vm_compute; discriminate).
  assert (len data ≠ 131072) as Hsize by (vm_compute; discriminate).
  pose proof (dump_world_file data ["Y"]) as Hfile.
  split_and!; [exact Hlong | exact Hsize |].
  destruct (confirmed_mismatch_still_converts
              (dump_world data ["Y"]) "ROMF.ram" (Some "out/game.sav") data
              "Y" [] Hfile Hlong Hsize eq_refl (or_intror eq_refl))
    as (_ & out & Hout & _ & Hrun).
  vm_compute in Hout. injection Hout as <-.
  destruct (dump_world_writable data ["Y"] (mk_path "" ["out"; "game.sav"]))
    as [Hnode Hwrite]; [discriminate|].
  destruct (Hrun Hnode Hwrite) as (w' & Hrun' & Hwritten).
  exists w'. split; [exact Hrun' | exact Hwritten].
Defined.

(** ** C9: the answers to the size question *)

(** C9: on a size mismatch the run goes on to the extraction exactly for
    the answers [y] and [Y] (the answers whose lower case is [y]); for every
    other answer it returns [False] right after the question, with the files
    unchanged. *)
Theorem only_y_continues_past_size_mismatch
    (w : world) (input_file : string) (output_file : option string)
    (data : bytes) (response : string) (rest : list string) :
  node_at w (Path input_file) = Some (File data) →
  len data ≠ 131072 →
  stdin w = response :: rest →
  let w2 :=
    asked (printed w [MsgReading (name (Path input_file));
                      MsgFileSize (len data)]) (len data) rest in
  (lower response = "y" ↔ response = "y" ∨ response = "Y") ∧
  (response = "y" ∨ response = "Y" →
   convert_sram_save input_file output_file w
   = extract_and_write (Path input_file) output_file data w2) ∧
  (¬ (response = "y" ∨ response = "Y") →
   convert_sram_save input_file output_file w = (Return false, w2) ∧
   files w2 = files w).
Proof.
  intros Hfile Hsize Hin w2.
  pose proof (convert_answered_run w input_file output_file data Hfile
                response rest Hsize Hin) as Hrun.
  split_and!; [apply lower_y | |].
  - intros Hyes%lower_y%String.eqb_eq. rewrite Hyes in Hrun.
    by rewrite extract_and_write_closed.
  - intros Hno. rewrite <- lower_y in Hno.
    apply String.eqb_neq in Hno. by rewrite Hno in Hrun.
Qed.

Lemma only_y_continues_past_size_mismatch_witness :
  let data := repeat x01 (Z.to_nat 65536) in
  len data ≠ 131072 ∧
  ∃ w2, convert_sram_save "ROMF.ram" None (dump_world data ["yes"])
        = (Return false, w2) ∧
    files w2 = files (dump_world data ["yes"]).
Proof.
  intros data.
  assert (len data ≠ 131072) as Hsize by (vm_compute; discriminate).
  pose proof (dump_world_file data ["yes"]) as Hfile.
  split; [exact Hsize|].
  destruct (only_y_continues_past_size_mismatch
              (dump_world data ["yes"]) "ROMF.ram" None data
              "yes" [] Hfile Hsize eq_refl) as (_ & _ & Hno).
  eexists. apply Hno. intros [Hy | Hy]; discriminate Hy.
Defined.

(** ** C4: the size validation *)

Lemma validateSize_spec_Exact (buffer : bytes) :
  validateSize_spec buffer = Exact ↔ len buffer = 131072.
Proof.
  unfold validateSize_spec. destruct (Z.eqb_spec (len buffer) 131072); by split.
Qed.

Lemma validateSize_spec_Mismatch (buffer : bytes) n :
  validateSize_spec buffer = Mismatch n ↔ len buffer ≠ 131072 ∧ n = len buffer.
Proof.
  unfold validateSize_spec. destruct (Z.eqb_spec (len buffer) 131072).
  - split; [done | intros [? _]; congruence].
  - split; [by intros [= <-] | by intros [_ ->]].
Qed.

(** C4: the program treats the input as of the exact size if and only if
    its length is 131072: it prints the size warning, with the actual
    length, exactly when the specification's validation is a mismatch with
    that length, and with the exact size it reads no answer; on a mismatch
    with an answer other than [y] or [Y] the run returns [False] and leaves
    the files as they were. *)
Theorem size_validation_and_declined_mismatch
    (w : world) (input_file : string) (output_file : option string)
    (data : bytes) :
  node_at w (Path input_file) = Some (File data) →
  let run := convert_sram_save input_file output_file w in
  (validateSize_spec data = Exact ↔ len data = 131072) ∧
  (∀ n, validateSize_spec data = Mismatch n ↔
        len data ≠ 131072 ∧ n = len data) ∧
  (∃ msgs, stdout run.2 = stdout w ++ msgs ∧
     ∀ n, MsgSizeWarning n ∈ msgs ↔ validateSize_spec data = Mismatch n) ∧
  (validateSize_spec data = Exact → stdin run.2 = stdin w) ∧
  (∀ response rest,
     validateSize_spec data ≠ Exact →
     stdin w = response :: rest →
     lower response ≠ "y" →
     run.1 = Return false ∧ files run.2 = files w).
Proof.
  intros Hfile run.
  split_and!; [apply validateSize_spec_Exact | apply validateSize_spec_Mismatch | | |].
  - destruct (convert_trace w input_file output_file data Hfile run.1 run.2)
      as (late & Hlate & Hout & _); [apply surjective_pairing|].
    eexists. split; [exact Hout|]. intros n.
    rewrite validateSize_spec_Mismatch. rewrite Forall_forall in Hlate.
    rewrite !elem_of_app.
    destruct (Z.eqb_spec (len data) 131072) as [Hlen|Hlen].
    + split; [|intros [? _]; congruence].
      intros [Hel | [Hel | Hel]].
      * apply elem_of_cons in Hel as [[=] | Hel].
        apply elem_of_cons in Hel as [[=] | Hel]. by apply elem_of_nil in Hel.
      * by apply elem_of_nil in Hel.
      * by apply Hlate in Hel.
    + split.
      * intros [Hel | [Hel | Hel]].
        -- apply elem_of_cons in Hel as [[=] | Hel].
           apply elem_of_cons in Hel as [[=] | Hel]. by apply elem_of_nil in Hel.
        -- apply elem_of_cons in Hel as [[= ->] | Hel]; [done|].
           apply elem_of_cons in Hel as [[=] | Hel].
           apply elem_of_cons in Hel as [[=] | Hel]. by apply elem_of_nil in Hel.
        -- by apply Hlate in Hel.
      * intros [_ ->]. right. left. left.
  - intros Hexact%validateSize_spec_Exact.
    destruct (convert_trace w input_file output_file data Hfile run.1 run.2)
      as (_ & _ & _ & Hin); [apply surjective_pairing|]. by apply Hin.
  - intros response rest Hmismatch Hin Hno.
    assert (len data ≠ 131072) as Hsize
      by (by rewrite <- validateSize_spec_Exact).
    subst run.
    rewrite (convert_answered_run w input_file output_file data Hfile
               response rest Hsize Hin).
    apply String.eqb_neq in Hno. by rewrite Hno.
Qed.

Lemma size_validation_and_declined_mismatch_witness :
  let data := repeat x01 (Z.to_nat 65536) in
  let w := dump_world data ["n"] in
  validateSize_spec data = Mismatch 65536 ∧
  (convert_sram_save "ROMF.ram" None w).1 = Return false ∧
  files (convert_sram_save "ROMF.ram" None w).2 = files w.
Proof.
  intros data w.
  assert (validateSize_spec data = Mismatch 65536) as Hmismatch
    by (vm_compute; reflexivity).
  split; [exact Hmismatch|].
  destruct (size_validation_and_declined_mismatch
              w "ROMF.ram" None data (dump_world_file data ["n"]))
    as (_ & _ & _ & _ & Hdeclined).
  apply (Hdeclined "n" []); [|reflexivity|discriminate].
  rewrite Hmismatch. discriminate.
Defined.

(** ** C6: the output path *)

Lemma convert_success_reads_file w input_file output_file w' :
  convert_sram_save input_file output_file w = (Return true, w') →
  ∃ data, node_at w (Path input_file) = Some (File data).
Proof.
  rewrite convert_sram_save_closed. unfold convert_sram_save_result.
  destruct (node_at w (Path input_file)) as [[data|]|]; [eauto | done | done].
Qed.

(** C6: a given output path is taken as it is, whatever the input path;
    without one, the output path is the input path with the suffix of its
    name replaced by [.sav]: same root, same parent components, same stem.
    A run that returns [True] has written its file at that path. *)
Theorem output_path_derived_or_given (input_file : string) :
  let input_path := Path input_file in
  (∀ given, output_path input_path (Some given) = inr (Path given)) ∧
  (name input_path ≠ "" →
   ∃ stem out,
     stem ≠ "" ∧
     name input_path = stem +:+ suffix input_path ∧
     output_path input_path None = inr out ∧
     root out = root input_path ∧
     removelast (tail out) = removelast (tail input_path) ∧
     name out = stem +:+ ".sav" ∧
     suffix out = ".sav") ∧
  (∀ w output_file w',
     convert_sram_save input_file output_file w = (Return true, w') →
     name input_path ≠ "" ∧
     ∃ out, output_path input_path output_file = inr out ∧
       is_Some (files w' !! out) ∧
       ∀ p, p ≠ out → files w' !! p = files w !! p).
Proof.
  intros input_path. split_and!.
  - done.
  - intros Hname. destruct (with_suffix_sav input_path Hname)
      as (stem & Hstem & Hsplit & Hout).
    destruct (suffix_of_sav_name (root input_path)
                (removelast (tail input_path)) stem Hstem) as [Hname' Hsuffix].
    eexists stem, _. split_and!; [done | done | exact Hout | done | | done | done].
    cbn [tail]. apply removelast_last.
  - intros w output_file w' Hrun.
    destruct (convert_success_reads_file _ _ _ _ Hrun) as [data Hfile].
    split; [by eapply name_of_file|].
    destruct (convert_files w input_file output_file data Hfile _ _ Hrun)
      as [_ Hok].
    destruct (Hok eq_refl) as (_ & out & Hout & ->).
    exists out. split_and!; [done | by rewrite lookup_insert_eq |].
    intros p Hp. by rewrite lookup_insert_ne.
Qed.

(** The derivation on some names. *)
Example output_path_samples :
  output_path (Path "ROMF.ram") None = inr (Path "ROMF.sav") ∧
  output_path (Path "/mnt/sd/dumps/ROM.fla") None
    = inr (Path "/mnt/sd/dumps/ROM.sav") ∧
  output_path (Path "saves/Mario Golf.v2.ram") None
    = inr (Path "saves/Mario Golf.v2.sav") ∧
  output_path (Path "dump") None = inr (Path "dump.sav") ∧
  output_path (Path "ROM.fla") (Some "Mario Golf 64.sav")
    = inr (Path "Mario Golf 64.sav").
Proof. split_and!; reflexivity. Qed.

(** ** C5: the fill ratio *)

Lemma sum_ones {A} (l : list A) : sum ((λ _, 1) <$> l) = len l.
Proof.
  unfold sum, len.
  assert (∀ acc, foldl Z.add acc ((λ _, 1) <$> l) = acc + Z.of_nat (length l))
    as Hacc.
  { induction l as [|x l IH]; intros acc; simpl; [lia|]. rewrite IH. lia. }
  by rewrite Hacc.
Qed.

Lemma to_N_zero b : Byte.to_N b = 0%N ↔ b = x00.
Proof. split; [|by intros ->]. destruct b; by intros [=]. Qed.

Lemma count_non_zero_filter (save_data : bytes) :
  count_non_zero save_data
  = len (filter (λ b, Byte.to_N b ≠ 0%N) save_data).
Proof. unfold count_non_zero. apply sum_ones. Qed.

Lemma count_non_zero_bounds (save_data : bytes) :
  0 ≤ count_non_zero save_data ≤ len save_data.
Proof.
  rewrite count_non_zero_filter. unfold len.
  pose proof (length_filter (λ b, Byte.to_N b ≠ 0%N) save_data). lia.
Qed.

Lemma count_non_zero_all_zero (save_data : bytes) :
  Forall (λ b, b = x00) save_data → count_non_zero save_data = 0.
Proof.
  intros Hzero. rewrite count_non_zero_filter.
  induction Hzero as [|b l -> _ IH]; [done|].
  by rewrite filter_cons_False by (intros H; by apply H).
Qed.

Lemma count_non_zero_no_zero (save_data : bytes) :
  Forall (λ b, b ≠ x00) save_data → count_non_zero save_data = len save_data.
Proof.
  intros Hnon. rewrite count_non_zero_filter.
  induction Hnon as [|b l Hb _ IH]; [done|].
  rewrite filter_cons_True by (by rewrite to_N_zero).
  unfold len in *. simpl. lia.
Qed.

Lemma all_from_spec fuel start p c :
  all_from fuel start p = true →
  start ≤ c < start + Z.of_nat fuel → p c = true.
Proof.
  revert start. induction fuel as [|fuel IH]; intros start; [lia|].
  cbn [all_from]. intros [Hstart Hrest]%andb_true_iff Hc.
  destruct (Z.eq_dec c start) as [->|Hne]; [done|].
  apply (IH (start + 1)); [done | lia].
Qed.

Lemma float_is_ratio_b_spec f num den :
  float_is_ratio_b f num den = true → float_is_ratio f num den.
Proof.
  destruct f as [s|s| |s m e]; simpl; try done; by intros ?%Z.eqb_eq.
Qed.

(** Every count of non-zero bytes of a 32768-byte region, one by one. *)
Lemma percentage_exact_all :
  all_from (Z.to_nat 32769) 0 percentage_exact_b = true.
Proof. vm_compute. reflexivity. Qed.

(** *** Division and product on every length *)

Lemma digits2_pos_iter_xO (p k : positive) :
  digits2_pos (Pos.iter xO p k) = (digits2_pos p + k)%positive.
Proof.
  induction k as [|k IH] using Pos.peano_ind.
  - simpl. lia.
  - rewrite Pos.iter_succ. simpl. rewrite IH. lia.
Qed.

Lemma digits2_pos_lower (p : positive) :
  2 ^ (Z.pos (digits2_pos p) - 1) ≤ Z.pos p.
Proof.
  induction p as [p IH|p IH|]; cbn [digits2_pos]; [| |done].
  - rewrite Pos2Z.inj_succ.
    replace (Z.succ (Z.pos (digits2_pos p)) - 1)
      with (Z.succ (Z.pos (digits2_pos p) - 1)) by lia.
    rewrite Z.pow_succ_r by lia. lia.
  - rewrite Pos2Z.inj_succ.
    replace (Z.succ (Z.pos (digits2_pos p)) - 1)
      with (Z.succ (Z.pos (digits2_pos p) - 1)) by lia.
    rewrite Z.pow_succ_r by lia. lia.
Qed.

(** A mantissa of 53 bits with an exponent in range is left as it is. *)
Lemma binary_round_aux_normal s m e :
  digits2_pos m = 53%positive → -1074 ≤ e ≤ 971 →
  binary_round_aux 53 1024 s (Z.pos m) e loc_Exact = S754_finite s m e.
Proof.
  intros Hd He. unfold binary_round_aux.
  assert (shr_fexp 53 1024 (Z.pos m) e loc_Exact
          = (Build_shr_record (Z.pos m) false false, e)) as Hshr.
  { unfold shr_fexp. cbn [Zdigits2 shr_record_of_loc]. rewrite Hd.
    unfold fexp, emin.
    replace (Z.max (53 + e - 53) (3 - 1024 - 53) - e) with 0 by lia.
    reflexivity. }
  rewrite Hshr. cbn [shr_m loc_of_shr_record round_nearest_even].
  rewrite Hshr. cbn [shr_m].
  destruct (Z.leb_spec e (1024 - 53)); [done | lia].
Qed.

(** [float(n)] for [0 < n < 2 ^ 53] is a normal number: no rounding. *)
Lemma float_of_int_normal (n : Z) :
  0 < n < 2 ^ 53 →
  ∃ m e, float_of_int n = S754_finite false m e ∧
    digits2_pos m = 53%positive ∧ -1074 ≤ e ≤ 971.
Proof.
  intros Hn. destruct n as [|p|p]; [lia | | lia].
  unfold float_of_int, binary_normalize, binary_round.
  assert (Z.pos (digits2_pos p) ≤ 53) as Hd.
  { destruct (Z.le_gt_cases (Z.pos (digits2_pos p)) 53) as [|Hbig]; [done|].
    pose proof (digits2_pos_lower p) as Hlow.
    pose proof (Z.pow_le_mono_r 2 53 (Z.pos (digits2_pos p) - 1)) as Hmono.
    lia. }
  unfold fexp, emin.
  replace (Z.max (Z.pos (digits2_pos p) + 0 - 53) (3 - 1024 - 53))
    with (Z.pos (digits2_pos p) - 53) by lia.
  unfold shl_align.
  destruct (Z.pos (digits2_pos p) - 53 - 0) as [|k|k] eqn:Hk; [|lia|].
  - exists p, 0. rewrite binary_round_aux_normal; [|lia|lia].
    split_and!; try done; lia.
  - exists (Pos.iter xO p k), (Z.pos (digits2_pos p) - 53).
    rewrite binary_round_aux_normal.
    + split_and!; try done; try lia. rewrite digits2_pos_iter_xO. lia.
    + rewrite digits2_pos_iter_xO. lia.
    + lia.
Qed.

Lemma div_eucl_mul_pow2 (m : positive) :
  Z.div_eucl (Z.shiftl (Z.pos m) 53) (Z.pos m) = (2 ^ 53, 0).
Proof.
  rewrite Z.shiftl_mul_pow2 by lia. rewrite Z.mul_comm.
  pose proof (Z.div_mul (2 ^ 53) (Z.pos m) ltac:(lia)) as Hq.
  pose proof (Z.mod_mul (2 ^ 53) (Z.pos m) ltac:(lia)) as Hr.
  unfold Z.div, Z.modulo in Hq, Hr.
  destruct (Z.div_eucl (2 ^ 53 * Z.pos m) (Z.pos m)) as [q r]. by subst.
Qed.

(** A normal number divided by itself is 1.0. *)
Lemma SFdiv_same m e :
  digits2_pos m = 53%positive → -1074 ≤ e ≤ 971 →
  SFdiv 53 1024 (S754_finite false m e) (S754_finite false m e)
  = S754_finite false 4503599627370496 (-52).
Proof.
  intros Hd He. unfold SFdiv, SFdiv_core_binary. cbn [Zdigits2]. rewrite Hd.
  unfold fexp, emin.
  replace (Z.min (Z.max (53 + e - (53 + e) - 53) (3 - 1024 - 53)) (e - e))
    with (-53) by lia.
  replace (e - e - -53) with 53 by lia.
  rewrite div_eucl_mul_pow2.
  assert (new_location (Z.pos m) 0 = loc_Exact) as ->
    by (unfold new_location; by destruct (Z.even (Z.pos m))).
  by vm_compute.
Qed.

(** [(0 / n) * 100] is 0.0 and [(n / n) * 100] is 100.0, for every length
    [n] of a region that is not empty. *)
Lemma percentage_all_zero (save_data : bytes) :
  0 < len save_data < 2 ^ 53 →
  percentage 0 save_data = inr (S754_zero false).
Proof.
  intros Hlen. unfold percentage, int_truediv.
  destruct (Z.eqb_spec (len save_data) 0); [lia|].
  destruct (float_of_int_normal _ Hlen) as (m & e & -> & _). reflexivity.
Qed.

Lemma percentage_no_zero (save_data : bytes) :
  0 < len save_data < 2 ^ 53 →
  percentage (len save_data) save_data = inr (float_of_int 100).
Proof.
  intros Hlen. unfold percentage, int_truediv.
  destruct (Z.eqb_spec (len save_data) 0); [lia|].
  destruct (float_of_int_normal _ Hlen) as (m & e & -> & Hd & He).
  rewrite SFdiv_same by done. by vm_compute.
Qed.

(** C5: the fill ratio is computed as [(non_zero / len(save_data)) * 100]
    on the count of the bytes that are not zero. On a region that is not
    empty, of any size, it is 0.0 when all bytes are zero and 100.0 when
    none is; on the 32768 bytes the program computes it for, it is the
    float that is exactly 100 times the count divided by the length. (The
    bound [2 ^ 53] is on the operands of the division as it is embedded: no
    byte string is that long.) *)
Theorem fill_ratio_of_region (save_data : bytes) :
  0 < len save_data < 2 ^ 53 →
  let non_zero := count_non_zero save_data in
  non_zero = len (filter (λ b, Byte.to_N b ≠ 0%N) save_data) ∧
  ∃ f,
    percentage non_zero save_data = inr f ∧
    (Forall (λ b, b = x00) save_data → f = S754_zero false) ∧
    (Forall (λ b, b ≠ x00) save_data →
     f = float_of_int 100 ∧ float_is_ratio f 100 1) ∧
    (len save_data = sram_size →
     float_is_ratio f (100 * non_zero) (len save_data)).
Proof.
  intros Hlen non_zero. split; [apply count_non_zero_filter|].
  assert (∃ f, percentage non_zero save_data = inr f) as [f Hf].
  { unfold percentage, int_truediv.
    destruct (Z.eqb_spec (len save_data) 0); [lia | eauto]. }
  exists f. split_and!; [done | | |].
  - intros Hzero%count_non_zero_all_zero. fold non_zero in Hzero.
    rewrite Hzero, percentage_all_zero in Hf by done. by injection Hf as <-.
  - intros Hnon%count_non_zero_no_zero. fold non_zero in Hnon.
    rewrite Hnon, percentage_no_zero in Hf by done. injection Hf as <-.
    split; [done | by vm_compute].
  - intros Hregion.
    pose proof (count_non_zero_bounds save_data) as Hbounds.
    fold non_zero in Hbounds.
    assert (percentage_exact_b non_zero = true) as Hexact.
    { apply (all_from_spec _ _ _ _ percentage_exact_all).
      rewrite Hregion in Hbounds. unfold sram_size in Hbounds. lia. }
    unfold percentage_exact_b in Hexact. unfold percentage in Hf.
    rewrite Hregion in Hf |- *.
    destruct (int_truediv non_zero sram_size) as [e|q]; [done|].
    injection Hf as <-. by apply float_is_ratio_b_spec.
Qed.

Lemma fill_ratio_of_region_witness :
  let region := replicate 1000 x00 in
  0 < len region < 2 ^ 53 ∧
  percentage (count_non_zero region) region = inr (S754_zero false).
Proof.
  intros region.
  assert (0 < len region < 2 ^ 53) as Hlen by (by vm_compute).
  split; [exact Hlen|].
  destruct (fill_ratio_of_region region Hlen) as (_ & f & Hf & Hzero & _).
  rewrite Hf. f_equal. apply Hzero. apply Forall_replicate. reflexivity.
Defined.

(** The program never takes the ratio of an empty region: the check of the
    length of the slice comes first. The expression itself would divide by
    zero there. *)
Lemma fill_ratio_of_empty_region_raises :
  percentage (count_non_zero []) [] = inl ZeroDivisionError.
Proof. reflexivity. Qed.

(** On sizes other than that of the region the product can be rounded: 7
    non-zero bytes out of 100 give 7.000000000000001, not the float 7.0. *)
Example fill_ratio_rounds_on_other_sizes :
  let region := replicate 7 x01 ++ replicate 93 x00 in
  count_non_zero region = 7 ∧ len region = 100 ∧
  percentage (count_non_zero region) region
    = inr (S754_finite false 7881299347898369 (-50)) ∧
  float_of_int 7 = S754_finite false 7881299347898368 (-50).
Proof. split_and!; by vm_compute. Qed.

(** ** Sample worlds *)

Lemma locked_world_file data :
  node_at (locked_world data) (Path "ROMF.ram") = Some (File data).
Proof. reflexivity. Qed.

Lemma locked_world_denied data :
  Path "ROMF.sav" ∈ write_denied (locked_world data).
Proof. unfold locked_world. cbn [write_denied]. by apply elem_of_singleton_2. Qed.

(** ** Whole runs *)

Lemma confirmed_exact w (data : bytes) :
  len data = 131072 → confirmed w data = true.
Proof. intros Hlen. unfold confirmed. by apply Z.eqb_eq in Hlen as ->. Qed.

Lemma confirmed_spec w (data : bytes) :
  confirmed w data = true ↔
  len data = 131072 ∨
  ∃ response rest, stdin w = response :: rest ∧
    (response = "y" ∨ response = "Y").
Proof.
  unfold confirmed. rewrite orb_true_iff, Z.eqb_eq.
  split; (intros [Hlen | Hanswer]; [by left | right]).
  - destruct (stdin w) as [|response rest]; [done|].
    exists response, rest. split; [done|]. by apply lower_y, String.eqb_eq.
  - destruct Hanswer as (response & rest & -> & Hyes).
    by apply String.eqb_eq, lower_y.
Qed.

Lemma checked_frame w input_file data :
  files (checked w input_file data) = files w ∧
  write_denied (checked w input_file data) = write_denied w ∧
  stdin (checked w input_file data)
  = (if len data =? 131072 then stdin w else drop 1 (stdin w)).
Proof. unfold checked. by destruct (len data =? 131072). Qed.

(** A run on a readable file: the last phase when the size check lets it
    go on; else [False] for an answer, [EOFError] without one. *)
Lemma convert_file_run w input_file output_file data :
  node_at w (Path input_file) = Some (File data) →
  convert_sram_save input_file output_file w =
  if confirmed w data
  then extract_and_write_result (Path input_file) output_file data
         (checked w input_file data)
  else (match stdin w with
        | [] => Raise EOFError
        | _ :: _ => Return false
        end, checked w input_file data).
Proof.
  intros Hfile. rewrite convert_sram_save_closed.
  unfold convert_sram_save_result, confirmed, checked. rewrite Hfile.
  destruct (len data =? 131072); [done|]. cbn [orb].
  destruct (stdin w) as [|response rest]; [done|].
  by destruct (String.eqb (lower response) "y").
Qed.

(** The last phase on at least 32768 bytes: it fails only at the opening
    of the output file. *)
Lemma extract_result_long input_path output_file data w out :
  sram_size ≤ len data →
  output_path input_path output_file = inr out →
  let save_data := slice data 0 sram_size in
  ∃ f, percentage (count_non_zero save_data) save_data = inr f ∧
    extract_and_write_result input_path output_file data w =
    match node_at w out with
    | Some Directory =>
        (Raise IsADirectoryError, printed w (extraction_messages save_data f out))
    | _ =>
        if bool_decide (out ∈ write_denied w)
        then (Raise OSError, printed w (extraction_messages save_data f out))
        else
          (Return true,
           World (<[out := File save_data]> (files w)) (write_denied w)
             (stdin w)
             (stdout w ++ extraction_messages save_data f out ++
                [MsgComplete out (len save_data); MsgNextSteps]))
    end.
Proof.
  intros [_ Hlen]%region_of_long_data Hout save_data.
  subst save_data.
  destruct (percentage_of_region _ Hlen) as [f Hf]. exists f. split; [done|].
  unfold extract_and_write_result, extraction_messages. cbv zeta.
  rewrite Hf, Hout. apply Z.eqb_eq in Hlen. by rewrite Hlen.
Qed.

Lemma convert_missing_run w input_file output_file :
  node_at w (Path input_file) = None →
  convert_sram_save input_file output_file w
  = (Return false, printed w [MsgInputNotFound input_file]).
Proof.
  intros Hnode. rewrite convert_sram_save_closed.
  unfold convert_sram_save_result. by rewrite Hnode.
Qed.

Lemma convert_directory_run w input_file output_file :
  node_at w (Path input_file) = Some Directory →
  convert_sram_save input_file output_file w
  = (Raise IsADirectoryError, printed w [MsgReading (name (Path input_file))]).
Proof.
  intros Hnode. rewrite convert_sram_save_closed.
  unfold convert_sram_save_result. by rewrite Hnode.
Qed.

(** The last phase of a run on a readable file, after the size check let it
    go on: [False] on fewer than 32768 bytes, else an outcome decided by
    the output path alone. *)
Lemma convert_confirmed_run w input_file output_file data :
  node_at w (Path input_file) = Some (File data) →
  confirmed w data = true →
  let w2 := checked w input_file data in
  let save_data := slice data 0 sram_size in
  (len data < sram_size →
   convert_sram_save input_file output_file w =
   (Return false,
    printed w2 [MsgExtracting sram_size; MsgCouldNotExtract sram_size])) ∧
  (sram_size ≤ len data →
   ∃ out f,
     output_path (Path input_file) output_file = inr out ∧
     percentage (count_non_zero save_data) save_data = inr f ∧
     convert_sram_save input_file output_file w =
     match node_at w out with
     | Some Directory =>
         (Raise IsADirectoryError,
          printed w2 (extraction_messages save_data f out))
     | _ =>
         if bool_decide (out ∈ write_denied w)
         then (Raise OSError, printed w2 (extraction_messages save_data f out))
         else
           (Return true,
            World (<[out := File save_data]> (files w)) (write_denied w)
              (stdin w2)
              (stdout w2 ++ extraction_messages save_data f out ++
                 [MsgComplete out (len save_data); MsgNextSteps]))
     end).
Proof.
  intros Hfile Hconfirmed w2 save_data.
  rewrite (convert_file_run w input_file output_file data Hfile), Hconfirmed.
  fold w2. split.
  - intros Hshort. by apply extract_result_short.
  - intros Hlong.
    destruct (output_path_of_file w input_file output_file data Hfile)
      as [out Hout].
    destruct (extract_result_long (Path input_file) output_file data w2 out
                Hlong Hout) as (f & Hf & Hrun).
    exists out, f. split_and!; [done | done |]. rewrite Hrun.
    destruct (checked_frame w input_file data) as (Hfiles & Hdenied & _).
    fold w2 in Hfiles, Hdenied.
    by rewrite (node_at_files w w2 out Hfiles), Hfiles, Hdenied.
Qed.

(** The conditions under which a run returns [True], and what it has
    written then. *)
Lemma convert_success_of_conditions w input_file output_file data out :
  node_at w (Path input_file) = Some (File data) →
  sram_size ≤ len data →
  confirmed w data = true →
  output_path (Path input_file) output_file = inr out →
  node_at w out ≠ Some Directory →
  out ∉ write_denied w →
  ∃ w', convert_sram_save input_file output_file w = (Return true, w') ∧
    files w' = <[out := File (take (Z.to_nat 32768) data)]> (files w).
Proof.
  intros Hfile Hlong Hconfirmed Hout Hnode Hdenied.
  destruct (convert_confirmed_run w input_file output_file data
              Hfile Hconfirmed) as [_ Hlongrun].
  destruct (Hlongrun Hlong) as (out' & f & Hout' & _ & ->).
  assert (out' = out) as -> by congruence.
  rewrite bool_decide_eq_false_2 by done.
  destruct (region_of_long_data data Hlong) as [-> _].
  destruct (node_at w out) as [[?|]|]; [|done|]; eauto.
Qed.

(** Unless a run returns [True] the files are as they were. *)
Lemma convert_failure_keeps_files w input_file output_file res w' :
  convert_sram_save input_file output_file w = (res, w') →
  res ≠ Return true → files w' = files w.
Proof.
  intros Hrun Hres.
  destruct (node_at w (Path input_file)) as [[data|]|] eqn:Hfile.
  - destruct (convert_files w input_file output_file data Hfile _ _ Hrun)
      as [Hkeep _]. by apply Hkeep.
  - rewrite convert_directory_run in Hrun by done. by injection Hrun as <- <-.
  - rewrite convert_missing_run in Hrun by done. by injection Hrun as <- <-.
Qed.

(** ** X1, X2: an input that cannot be read *)

(** X1: when the input path names nothing, the run prints the one line
    about the missing file and returns [False]; it reads no answer and
    touches no file. *)
Theorem missing_input_returns_false
    (w : world) (input_file : string) (output_file : option string) :
  node_at w (Path input_file) = None →
  convert_sram_save input_file output_file w
  = (Return false,
     World (files w) (write_denied w) (stdin w)
       (stdout w ++ [MsgInputNotFound input_file])).
Proof.
  intros Hnode.
  by rewrite (convert_missing_run w input_file output_file Hnode).
Qed.

Lemma missing_input_returns_false_witness :
  convert_sram_save "missing.ram" None (dump_world [] [])
  = (Return false,
     World (files (dump_world [] [])) ∅ [] [MsgInputNotFound "missing.ram"]).
Proof.
  apply (missing_input_returns_false (dump_world [] []) "missing.ram" None).
  reflexivity.
Defined.

(** X2: when the input path names a directory (as the empty path, [.] and
    [/] always do), [exists()] is true and the opening of the file raises
    [IsADirectoryError]: the run does not return [False], and touches no
    file. *)
Theorem directory_input_raises
    (w : world) (input_file : string) (output_file : option string) :
  tail (Path input_file) = [] ∨
    node_at w (Path input_file) = Some Directory →
  convert_sram_save input_file output_file w
  = (Raise IsADirectoryError,
     World (files w) (write_denied w) (stdin w)
       (stdout w ++ [MsgReading (name (Path input_file))])).
Proof.
  intros Hdir.
  assert (node_at w (Path input_file) = Some Directory) as Hnode.
  { destruct Hdir as [Htail | Hnode]; [|done]. unfold node_at. by rewrite Htail. }
  by rewrite (convert_directory_run w input_file output_file Hnode).
Qed.

Lemma directory_input_raises_witness :
  convert_sram_save "./" None (dump_world [] ["y"])
  = (Raise IsADirectoryError,
     World (files (dump_world [] ["y"])) ∅ ["y"] [MsgReading ""]).
Proof.
  apply (directory_input_raises (dump_world [] ["y"]) "./" None).
  left. reflexivity.
Defined.

(** ** X3: the outcomes of a run *)


(** ** X4: an output path that cannot be written *)

(** The lines of a run that stops at the opening of the output file: the
    last one announces the writing, and none is a closing line. *)
Lemma lines_before_the_writing w input_file (data : bytes) f out :
  let w' := printed (checked w input_file data)
              (extraction_messages (slice data 0 sram_size) f out) in
  last (stdout w') = Some (MsgWriting (name out)) ∧
  ∀ size, MsgComplete out size ∉ drop (length (stdout w)) (stdout w').
Proof.
  intros w'. subst w'. split.
  - unfold printed, extraction_messages. reduce_world.
    by rewrite !app_assoc, last_snoc.
  - intros size.
    assert (MsgComplete out size ∉ fill_messages (slice data 0 sram_size) f)
      as Hfill.
    { unfold fill_messages. case_match;
        rewrite !elem_of_cons, elem_of_nil; intros Hel;
        destruct_or!; done. }
    assert (MsgComplete out size ∉ detect_messages (slice data 0 sram_size))
      as Hdetect.
    { unfold detect_messages. repeat case_match;
        rewrite ?elem_of_cons, elem_of_nil; intros Hel;
        destruct_or?; done. }
    unfold printed, extraction_messages, checked, asked, printed.
    destruct (len data =? 131072); reduce_world;
      rewrite <- !app_assoc, drop_app_length;
      rewrite !elem_of_app, !elem_of_cons, elem_of_nil;
      intros Hel; destruct_or!; done.
Qed.

(** X4: when everything up to the writing went well but the output path is
    a directory or cannot be opened for writing, the run does not return:
    it raises, [IsADirectoryError] for a directory, right after the line
    that announces the writing, so that no closing line is printed; with a
    directory as output no file is changed. *)
Theorem unwritable_output_raises
    (w : world) (input_file : string) (output_file : option string)
    (data : bytes) (out : path) :
  node_at w (Path input_file) = Some (File data) →
  confirmed w data = true →
  sram_size ≤ len data →
  output_path (Path input_file) output_file = inr out →
  node_at w out = Some Directory ∨ out ∈ write_denied w →
  let run := convert_sram_save input_file output_file w in
  (∃ e, run.1 = Raise e ∧
     (node_at w out = Some Directory →
      e = IsADirectoryError ∧ files run.2 = files w)) ∧
  last (stdout run.2) = Some (MsgWriting (name out)) ∧
  (∀ size, MsgComplete out size ∉ drop (length (stdout w)) (stdout run.2)).
Proof.
  intros Hfile Hconfirmed Hlong Hout Hbad run. subst run.
  destruct (convert_confirmed_run w input_file output_file data
              Hfile Hconfirmed) as [_ Hrun].
  destruct (Hrun Hlong) as (out' & f & Hout' & _ & Hrun').
  assert (out' = out) as -> by congruence.
  destruct (checked_frame w input_file data) as (Hfiles & _ & _).
  destruct (lines_before_the_writing w input_file data f out)
    as (Hlast & Hnone).
  destruct (node_at w out) as [[content|]|] eqn:Hnode.
  - destruct Hbad as [[=] | Hdenied].
    rewrite bool_decide_eq_true_2 in Hrun' by done. rewrite Hrun'.
    split_and!; [by eexists | done | done].
  - rewrite Hrun'. split_and!; [by eexists | done | done].
  - destruct Hbad as [[=] | Hdenied].
    rewrite bool_decide_eq_true_2 in Hrun' by done. rewrite Hrun'.
    split_and!; [by eexists | done | done].
Qed.

Lemma unwritable_output_raises_witness :
  let data := replicate (Z.to_nat 131072) x00 in
  let run := convert_sram_save "ROMF.ram" None (locked_world data) in
  (∃ e, run.1 = Raise e) ∧
  last (stdout run.2) = Some (MsgWriting "ROMF.sav").
Proof.
  intros data run.
  assert (len data = 131072) as Hlen by (vm_compute; reflexivity).
  destruct (unwritable_output_raises (locked_world data) "ROMF.ram" None data
              (Path "ROMF.sav") (locked_world_file data)
              (confirmed_exact _ _ Hlen)) as ((e & Hraise & _) & Hlast & _).
  - unfold sram_size. rewrite Hlen. discriminate.
  - reflexivity.
  - right. apply locked_world_denied.
  - split; [by exists e | exact Hlast].
Defined.

(** ** X5: when a run succeeds *)

(** X5: a run returns [True] exactly when the input is a readable file of
    at least 32768 bytes, the size check lets it go on (131072 bytes, or
    the answer [y] in either case), and the output path is not a directory
    and can be opened for writing. Nothing else matters: not the content,
    not the fill ratio, not the detected game. *)
Theorem convert_succeeds_iff
    (w : world) (input_file : string) (output_file : option string) :
  (∃ w', convert_sram_save input_file output_file w = (Return true, w')) ↔
  ∃ data out,
    node_at w (Path input_file) = Some (File data) ∧
    sram_size ≤ len data ∧
    confirmed w data = true ∧
    output_path (Path input_file) output_file = inr out ∧
    node_at w out ≠ Some Directory ∧
    out ∉ write_denied w.
Proof.
  split.
  - intros [w' Hrun].
    destruct (convert_success_reads_file _ _ _ _ Hrun) as [data Hfile].
    destruct (convert_files w input_file output_file data Hfile _ _ Hrun)
      as [_ Hok].
    destruct (Hok eq_refl) as (Hlong & _).
    assert (confirmed w data = true) as Hconfirmed.
    { destruct (confirmed w data) eqn:Hconfirmed; [done|].
      rewrite (convert_file_run w input_file output_file data Hfile),
        Hconfirmed in Hrun.
      by destruct (stdin w). }
    destruct (convert_confirmed_run w input_file output_file data
                Hfile Hconfirmed) as [_ Hlongrun].
    destruct (Hlongrun Hlong) as (out & f & Hout & _ & Hrun').
    exists data, out. split_and!; [done..| |].
    + intros Hnode. rewrite Hnode, Hrun in Hrun'. discriminate Hrun'.
    + intros Hdenied. rewrite Hrun in Hrun'.
      rewrite bool_decide_eq_true_2 in Hrun' by done.
      by destruct (node_at w out) as [[?|]|].
  - intros (data & out & Hfile & Hlong & Hconfirmed & Hout & Hnode & Hdenied).
    destruct (convert_success_of_conditions w input_file output_file data out)
      as (w' & Hrun & _); eauto.
Qed.

(** ** X6: the terminal input *)

(** X6: a run reads at most one line of the terminal: exactly one (when
    there is one) if the input is a readable file whose length is not
    131072, and none in every other case, whatever the outcome. *)
Theorem convert_reads_at_most_one_line
    (w : world) (input_file : string) (output_file : option string) :
  stdin (convert_sram_save input_file output_file w).2 =
  match node_at w (Path input_file) with
  | Some (File data) =>
      if len data =? 131072 then stdin w else drop 1 (stdin w)
  | _ => stdin w
  end.
Proof.
  destruct (node_at w (Path input_file)) as [[data|]|] eqn:Hfile.
  - rewrite (convert_file_run w input_file output_file data Hfile).
    destruct (checked_frame w input_file data) as (_ & _ & Hin).
    destruct (confirmed w data); [|done].
    destruct (extract_and_write_result (Path input_file) output_file data
                (checked w input_file data)) as [res w'] eqn:Hrun.
    apply extract_result_inv in Hrun as (Hin' & _). cbn [snd]. congruence.
  - by rewrite convert_directory_run.
  - by rewrite convert_missing_run.
Qed.

(** ** X7, X8: the game detection *)

Lemma occurs_in_length (pat s : bytes) :
  occurs_in pat s → (length pat ≤ length s)%nat.
Proof. intros (pre & post & ->). rewrite !length_app. lia. Qed.

Lemma detect_labels (data : bytes) game :
  detect_game_from_save data = Some game →
  game = "The Legend of Zelda: Ocarina of Time" ∨ game = "Mario Golf 64".
Proof.
  unfold detect_game_from_save, markers. cbn [first_match].
  repeat case_match; intros [= <-]; first [by left | by right].
Qed.

(** X7: only the first 1024 bytes count for the detection: the result on
    the extracted region is the result on the whole file, and so is the
    result on any data with the same first 1024 bytes. *)
Theorem detection_reads_first_1024_bytes_only (data : bytes) :
  detect_game_from_save (slice data 0 sram_size) = detect_game_from_save data ∧
  detect_game_from_save (take 1024 data) = detect_game_from_save data ∧
  ∀ rest rest' : bytes,
    (1024 ≤ length data)%nat →
    detect_game_from_save (take 1024 data ++ rest)
    = detect_game_from_save (data ++ rest').
Proof.
  split_and!.
  - unfold detect_game_from_save. by rewrite slice_window_of_region.
  - rewrite !detect_window. by rewrite take_take.
  - intros rest rest' Hlen. rewrite !detect_window. f_equal.
    rewrite !take_app_le by (rewrite ?length_take; lia).
    by rewrite take_take.
Qed.

(** X8: the detection answers with one of the two labels of the table or
    with nothing, and with nothing on data too short to hold a marker:
    fewer than four bytes, the empty data among them. *)
Theorem detection_of_short_data (data : bytes) :
  (detect_game_from_save data = None ∨
   detect_game_from_save data = Some "The Legend of Zelda: Ocarina of Time" ∨
   detect_game_from_save data = Some "Mario Golf 64") ∧
  (len data < 4 → detect_game_from_save data = None) ∧
  (len data < 6 →
   detect_game_from_save data ≠ Some "The Legend of Zelda: Ocarina of Time").
Proof.
  split_and!.
  - destruct (detect_game_from_save data) as [game|] eqn:Hdetect; [|by left].
    right. destruct (detect_labels data game Hdetect) as [-> | ->]; first [by left | by right].
  - intros Hlen. rewrite detect_window. apply first_match_None.
    intros m g Hel Hocc%occurs_in_length. rewrite length_take in Hocc.
    unfold len in Hlen. unfold markers in Hel.
    apply elem_of_cons in Hel as [[= -> ->] | Hel]; [cbn [length] in Hocc; lia|].
    apply elem_of_cons in Hel as [[= -> ->] | Hel]; [cbn [length] in Hocc; lia|].
    by apply elem_of_nil in Hel.
  - intros Hlen Hdetect. rewrite detect_window in Hdetect.
    apply first_match_Some in Hdetect
      as (before & m & after & Heq & Hocc%occurs_in_length & _).
    rewrite length_take in Hocc. unfold len in Hlen. unfold markers in Heq.
    destruct before as [|b1 [|b2 before]]; cbn [app] in Heq.
    + injection Heq as <- _. cbn [length] in Hocc. lia.
    + injection Heq as _ _ Hlabel _. discriminate Hlabel.
    + injection Heq as _ _ Heq. by destruct before.
Qed.

(** ** X9: the lines of a run *)

Lemma count_non_zero_zero_iff (save_data : bytes) :
  count_non_zero save_data = 0 ↔ Forall (λ b, b = x00) save_data.
Proof.
  split; [|apply count_non_zero_all_zero].
  rewrite count_non_zero_filter. unfold len. intros Hcount.
  assert (filter (λ b, Byte.to_N b ≠ 0%N) save_data = []) as Hnil
    by (apply length_zero_iff_nil; lia).
  apply Forall_forall. intros b Hb. apply to_N_zero.
  destruct (decide (Byte.to_N b = 0%N)) as [|Hne]; [done|].
  by destruct (filter_nil_not_elem_of _ _ b Hnil Hne).
Qed.

Lemma detect_messages_of_data (data : bytes) :
  detect_messages (slice data 0 sram_size) =
  match detect_game_from_save data with
  | Some game => [MsgDetected game]
  | None => []
  end.
Proof.
  unfold detect_messages.
  replace (detect_game_from_save (slice data 0 sram_size))
    with (detect_game_from_save data)
    by (unfold detect_game_from_save; by rewrite slice_window_of_region).
  destruct (detect_game_from_save data) as [game|] eqn:Hdetect; [|done].
  by destruct (detect_labels data game Hdetect) as [-> | ->].
Qed.

(** X9: the lines of a run that got past the size check with at least
    32768 bytes, in their order: the file and its size; the three lines of
    the size check unless the size is 131072; the extraction; either the
    two lines about empty save data, exactly when all 32768 bytes are zero,
    or the line with the fill ratio; the detected game, if the detection on
    the file finds one; the writing; and the closing lines only when the
    run returns [True]. *)
Theorem lines_of_a_run_past_the_size_check
    (w : world) (input_file : string) (output_file : option string)
    (data : bytes) :
  node_at w (Path input_file) = Some (File data) →
  confirmed w data = true →
  sram_size ≤ len data →
  let run := convert_sram_save input_file output_file w in
  let save_data := slice data 0 sram_size in
  ∃ out f,
    output_path (Path input_file) output_file = inr out ∧
    percentage (count_non_zero save_data) save_data = inr f ∧
    (count_non_zero save_data = 0 ↔ Forall (λ b, b = x00) save_data) ∧
    stdout run.2 =
      stdout w
      ++ [MsgReading (name (Path input_file)); MsgFileSize (len data)]
      ++ (if len data =? 131072 then []
          else [MsgSizeWarning (len data); MsgMaybeNotDump; MsgPrompt])
      ++ [MsgExtracting 32768; MsgExtracted 32768]
      ++ (if count_non_zero save_data =? 0
          then [MsgEmptyWarning; MsgBlankHint] else [MsgFill f])
      ++ match detect_game_from_save data with
         | Some game => [MsgDetected game]
         | None => []
         end
      ++ [MsgWriting (name out)]
      ++ match run.1 with
         | Return true => [MsgComplete out 32768; MsgNextSteps]
         | _ => []
         end.
Proof.
  intros Hfile Hconfirmed Hlong run save_data. subst run.
  destruct (convert_confirmed_run w input_file output_file data
              Hfile Hconfirmed) as [_ Hrun].
  destruct (Hrun Hlong) as (out & f & Hout & Hf & ->).
  exists out, f. split_and!; [done | done | apply count_non_zero_zero_iff |].
  destruct (region_of_long_data data Hlong) as [_ Hlen].
  fold save_data in Hlen |- *.
  assert (stdout (checked w input_file data) ++
            extraction_messages save_data f out =
          stdout w
          ++ [MsgReading (name (Path input_file)); MsgFileSize (len data)]
          ++ (if len data =? 131072 then []
              else [MsgSizeWarning (len data); MsgMaybeNotDump; MsgPrompt])
          ++ [MsgExtracting 32768; MsgExtracted 32768]
          ++ (if count_non_zero save_data =? 0
              then [MsgEmptyWarning; MsgBlankHint] else [MsgFill f])
          ++ match detect_game_from_save data with
             | Some game => [MsgDetected game]
             | None => []
             end
          ++ [MsgWriting (name out)]) as Hlines.
  { unfold extraction_messages, fill_messages. subst save_data.
    rewrite detect_messages_of_data, Hlen.
    unfold checked, asked, printed. change sram_size with 32768.
    destruct (len data =? 131072); reduce_world;
      rewrite <- ?app_assoc; reflexivity. }
  destruct (node_at w out) as [[content|]|];
    try destruct (bool_decide (out ∈ write_denied w));
    cbn [fst snd printed stdout]; rewrite ?app_nil_r;
    rewrite ?Hlen; change sram_size with 32768;
    first [exact Hlines | by rewrite app_assoc, Hlines, <- !app_assoc].
Qed.

(** ** X10: an input that is already a [.sav] file *)

Lemma path_of_parent_and_name (p : path) :
  tail p ≠ [] → mk_path (root p) (removelast (tail p) ++ [name p]) = p.
Proof.
  destruct p as [r l]. cbn [root tail]. unfold name. cbn [tail]. intros Hl.
  f_equal. induction l as [|x l IH]; [done|].
  destruct l as [|y l]; [done|].
  rewrite last_cons_cons. cbn [removelast app]. f_equal. by apply IH.
Qed.

Lemma with_suffix_same (p : path) :
  suffix p = ".sav" → with_suffix p ".sav" = inr p.
Proof.
  intros Hsuffix.
  assert (name p ≠ "") as Hname.
  { intros Hempty. unfold suffix in Hsuffix. by rewrite Hempty in Hsuffix. }
  assert (tail p ≠ []) as Htail.
  { intros Hempty. unfold name in Hname. by rewrite Hempty in Hname. }
  destruct (with_suffix_sav p Hname) as (stem & _ & Hsplit & ->).
  rewrite Hsuffix in Hsplit. rewrite <- Hsplit.
  by rewrite path_of_parent_and_name.
Qed.

(** X10: when the name of the input already ends in [.sav] and no output
    path is given, the output path is the input path: a run that returns
    [True] has replaced the input file by its own first 32768 bytes, and
    when the file has exactly 32768 bytes the files are as they were. *)
Theorem sav_input_is_converted_in_place
    (w : world) (input_file : string) (data : bytes) :
  node_at w (Path input_file) = Some (File data) →
  suffix (Path input_file) = ".sav" →
  output_path (Path input_file) None = inr (Path input_file) ∧
  ∀ w', convert_sram_save input_file None w = (Return true, w') →
    files w' = <[Path input_file := File (take (Z.to_nat 32768) data)]> (files w) ∧
    (len data = 32768 → files w' = files w).
Proof.
  intros Hfile Hsuffix.
  assert (output_path (Path input_file) None = inr (Path input_file)) as Hout
    by (by apply with_suffix_same).
  split; [done|]. intros w' Hrun.
  destruct (convert_files w input_file None data Hfile _ _ Hrun) as [_ Hok].
  destruct (Hok eq_refl) as (Hlong & out & Hout' & ->).
  assert (out = Path input_file) as -> by congruence.
  destruct (region_of_long_data data Hlong) as [-> _].
  split; [done|]. intros Hlen.
  rewrite take_ge by (unfold len in Hlen; lia).
  apply insert_id. unfold node_at in Hfile.
  by destruct (tail (Path input_file)).
Qed.

(** ** X12: the range of the fill ratio *)

Lemma percentage_in_range_all :
  all_from (Z.to_nat 32769) 0 percentage_in_range_b = true.
Proof. vm_compute. reflexivity. Qed.

(** X12: on a region of 32768 bytes the fill ratio is a float between 0.0
    and 100.0, and it is 0.0 exactly when every byte is zero, the case in
    which the program prints its warning in place of the ratio. *)
Theorem fill_ratio_in_range (save_data : bytes) :
  len save_data = sram_size →
  ∃ f,
    percentage (count_non_zero save_data) save_data = inr f ∧
    SFleb (S754_zero false) f = true ∧
    SFleb f (float_of_int 100) = true ∧
    (SFeqb f (S754_zero false) = true ↔
     Forall (λ b, b = x00) save_data).
Proof.
  intros Hlen.
  pose proof (count_non_zero_bounds save_data) as Hbounds.
  assert (percentage_in_range_b (count_non_zero save_data) = true) as Hrange.
  { apply (all_from_spec _ _ _ _ percentage_in_range_all).
    rewrite Hlen in Hbounds. unfold sram_size in Hbounds. lia. }
  unfold percentage_in_range_b in Hrange. unfold percentage. rewrite Hlen.
  destruct (int_truediv (count_non_zero save_data) sram_size) as [e|q] eqn:Hq;
    [done|].
  apply andb_true_iff in Hrange as [[Hlow Hhigh]%andb_true_iff Hzero].
  exists (float_mul_int q 100). split_and!; [done..|].
  rewrite <- count_non_zero_zero_iff. split.
  - intros Heq. rewrite Heq in Hzero. by apply Z.eqb_eq in Hzero.
  - intros Hcount. rewrite Hcount in Hq. vm_compute in Hq.
    by injection Hq as <-.
Qed.

(** ** X13: the exit status *)

(** X13: [main] exits with the status 0 exactly when there is an input
    path and the conversion of it (to the third entry of [argv] when there
    is one) returned [True]; then the output file holds the first 32768
    bytes of the input file and no other file has changed. When [main]
    leaves by [sys.exit(1)], after a conversion that returned [False] or
    without an input path, the files are as they were; without an input
    path nothing at all happens beyond the banner and the usage text. *)
Theorem main_exit_status (argv : list string) (w : world) :
  let run := main argv w in
  let status := exit_status run.1.1 in
  (status = 0 ↔
   ∃ program input_file more w',
     argv = program :: input_file :: more ∧
     convert_sram_save input_file (head more) w = (Return true, w')) ∧
  (status = 0 →
   ∃ program input_file more data out,
     argv = program :: input_file :: more ∧
     node_at w (Path input_file) = Some (File data) ∧
     output_path (Path input_file) (head more) = inr out ∧
     files run.2 = <[out := File (take (Z.to_nat 32768) data)]> (files w) ∧
     len (take (Z.to_nat 32768) data) = 32768) ∧
  (run.1.1 = Exit 1 → files run.2 = files w) ∧
  ((length argv < 2)%nat →
   run = (Exit 1, [MsgBanner; MsgUsage], w)).
Proof.
  intros run status. subst status run.
  destruct argv as [|program [|input_file more]].
  1,2: cbn [main exit_status fst snd];
       (split_and!; [| done | done | done]);
       (split; [done | by intros (? & ? & ? & ? & [=] & _)]).
  assert (main (program :: input_file :: more) w =
          match convert_sram_save input_file (head more) w with
          | (Return success, w') =>
              (Exit (if success then 0 else 1), [MsgBanner], w')
          | (Next _, w') => (Exit 1, [MsgBanner], w')
          | (Raise e, w') => (Uncaught e, [MsgBanner], w')
          end) as -> by (by destruct more).
  destruct (convert_sram_save input_file (head more) w) as [res w'] eqn:Hrun.
  destruct res as [[]|[|]|e]; cbn [exit_status fst snd].
  2: { (* returned True *)
    destruct (convert_success_reads_file _ _ _ _ Hrun) as [data Hfile].
    destruct (convert_files w input_file (head more) data Hfile _ _ Hrun)
      as [_ Hok].
    destruct (Hok eq_refl) as (Hlong & out & Hout & Hfiles).
    destruct (region_of_long_data data Hlong) as [Hregion Hlen].
    rewrite Hregion in Hfiles, Hlen.
    split_and!; [| | done | cbn [length]; lia].
    - split; [|done]. intros _. by exists program, input_file, more, w'.
    - intros _. by exists program, input_file, more, data, out. }
  all: split_and!; [| done | | cbn [length]; lia].
  all: try (split; [done|];
            intros (? & ? & ? & ? & [= <- <- <-] & Hrun'); congruence).
  all: try done.
  all: intros _; by eapply convert_failure_keeps_files.
Qed.

(** ** Sample runs *)

Lemma save_world_file data answers :
  node_at (save_world data answers) (Path "game.sav") = Some (File data).
Proof. reflexivity. Qed.

Lemma lines_of_a_run_past_the_size_check_witness :
  ∃ f,
    stdout (convert_sram_save "ROMF.ram" None (dump_world mario_dump [])).2 =
    [MsgReading "ROMF.ram"; MsgFileSize 131072;
     MsgExtracting 32768; MsgExtracted 32768; MsgFill f;
     MsgDetected "Mario Golf 64"; MsgWriting "ROMF.sav";
     MsgComplete (Path "ROMF.sav") 32768; MsgNextSteps].
Proof.
  assert (len mario_dump = 131072) as Hlen by (vm_compute; reflexivity).
  assert (sram_size ≤ len mario_dump) as Hlong
    by (rewrite Hlen; vm_compute; discriminate).
  pose proof (dump_world_file mario_dump []) as Hfile.
  pose proof (confirmed_exact (dump_world mario_dump []) mario_dump Hlen)
    as Hconfirmed.
  destruct (lines_of_a_run_past_the_size_check
              (dump_world mario_dump []) "ROMF.ram" None mario_dump
              Hfile Hconfirmed Hlong) as (out & f & Hout & _ & _ & Hlines).
  vm_compute in Hout. injection Hout as <-.
  destruct (dump_world_writable mario_dump [] (mk_path "" ["ROMF.sav"]))
    as [Hnode Hwrite]; [discriminate|].
  destruct (convert_success_of_conditions
              (dump_world mario_dump []) "ROMF.ram" None mario_dump
              (mk_path "" ["ROMF.sav"]) Hfile Hlong Hconfirmed eq_refl
              Hnode Hwrite) as (w' & Hrun & _).
  assert ((count_non_zero (slice mario_dump 0 sram_size) =? 0) = false) as Hcount
    by (vm_compute; reflexivity).
  assert (detect_game_from_save mario_dump = Some "Mario Golf 64") as Hdetect
    by (vm_compute; reflexivity).
  exists f. rewrite Hlines, Hrun, Hcount, Hdetect, Hlen. reflexivity.
Defined.

Lemma sav_input_is_converted_in_place_witness :
  let data := replicate (Z.to_nat 32768) x01 in
  let w := save_world data ["y"] in
  ∃ w', convert_sram_save "game.sav" None w = (Return true, w') ∧
    files w' = files w.
Proof.
  intros data w.
  assert (len data = 32768) as Hlen by (vm_compute; reflexivity).
  assert (sram_size ≤ len data) as Hlong
    by (rewrite Hlen; vm_compute; discriminate).
  pose proof (save_world_file data ["y"]) as Hfile.
  destruct (sav_input_is_converted_in_place w "game.sav" data Hfile eq_refl)
    as [Hout Hplace].
  assert (confirmed w data = true) as Hconfirmed
    by (unfold confirmed; rewrite Hlen; reflexivity).
  destruct (convert_success_of_conditions w "game.sav" None data
              (Path "game.sav") Hfile Hlong Hconfirmed Hout)
    as (w' & Hrun & _).
  - unfold w. rewrite Hfile. discriminate.
  - apply not_elem_of_empty.
  - exists w'. split; [exact Hrun|]. by apply (Hplace w' Hrun).
Defined.

Lemma fill_ratio_in_range_witness :
  let region := replicate (Z.to_nat 32768) xff in
  ∃ f, percentage (count_non_zero region) region = inr f ∧
    SFleb f (float_of_int 100) = true.
Proof.
  intros region.
  assert (len region = sram_size) as Hlen by (vm_compute; reflexivity).
  destruct (fill_ratio_in_range region Hlen) as (f & Hf & _ & Hhigh & _).
  exists f. split; [exact Hf | exact Hhigh].
Defined.
